(** * snaps-utils [types.ts]: package.json validation structs

  A shallow embedding of [packages/snaps-utils/src/types.ts] and of the
  parts of its imports ([superstruct], [semver], [@metamask/utils]) that
  the exported structs and functions run through, followed by the
  properties of the exported API.

  JavaScript values are modelled as an inductive type; the only mutable
  object the file creates (the [RegExp] literal of [NameStruct], with its
  [lastIndex] slot) lives in an explicit store, and exceptions are an
  explicit completion (superstruct prints the value it rejects, and the
  conversion of a value to a string can throw), so that "throws" and "no
  hidden state" are statements about the model and not facts of the
  meta-language. *)

From Stdlib Require Import String Ascii List Bool Arith ZArith Lia.
From Stdlib Require Import DecimalString Permutation.
Import ListNotations.

Set Implicit Arguments.
Set Warnings "-register-all".

Local Open Scope string_scope.
Local Open Scope nat_scope.

(* ================================================================== *)
(** ** JavaScript values, the store and completions *)

Module JS.

(** The values a caller can hand to the predicates: parsed JSON plus
    [undefined].  The payload of a number is never inspected by any
    struct of this file except through [size], which compares it with
    integer bounds.  A string is the sequence of its code units; the
    units above 127 stand for everything outside ASCII, which no
    character class of this file contains, alone or in a surrogate pair. *)
Inductive value : Type :=
| VUndefined
| VNull
| VBool (b : bool)
| VNumber (n : Z)
| VString (s : string)
| VArray (elems : list value)
| VObject (props : list (string * value)).

(** superstruct's [isObject]: [typeof value === 'object' && value != null]. *)
Definition isObject (v : value) : bool :=
  match v with
  | VArray _ | VObject _ => true
  | _ => false
  end.

Definition isString (v : value) : bool :=
  match v with VString _ => true | _ => false end.

Definition isUndefined (v : value) : bool :=
  match v with VUndefined => true | _ => false end.

Definition string_of_nat (n : nat) : string :=
  NilEmpty.string_of_uint (Nat.to_uint n).

(** Own properties in insertion order; the first binding of a key is the
    one a read returns. *)
Fixpoint lookup (k : string) (props : list (string * value)) : value :=
  match props with
  | [] => VUndefined
  | (k', x) :: rest => if String.eqb k k' then x else lookup k rest
  end.

Fixpoint index_lookup (k : string) (i : nat) (elems : list value) : value :=
  match elems with
  | [] => VUndefined
  | x :: rest =>
      if String.eqb k (string_of_nat i) then x else index_lookup k (S i) rest
  end.

(** [value[k]] on an object or an array (the only values the structs
    read properties of: every read is behind [isObject]). *)
Definition getProp (v : value) (k : string) : value :=
  match v with
  | VObject props => lookup k props
  | VArray elems =>
      if String.eqb k "length" then VNumber (Z.of_nat (List.length elems))
      else index_lookup k 0 elems
  | _ => VUndefined
  end.

(** An array index: the canonical decimal string of an integer below
    [2^32 - 1]. *)
Definition array_index (k : string) : option N :=
  match NilEmpty.uint_of_string k with
  | Some d =>
      let n := N.of_uint d in
      if String.eqb (NilEmpty.string_of_uint (N.to_uint n)) k
         && (n <? 4294967295)%N
      then Some n
      else None
  | None => None
  end.

Fixpoint insert_index (n : N) (k : string) (l : list (N * string))
  : list (N * string) :=
  match l with
  | [] => [(n, k)]
  | (m, k') :: rest =>
      if (n <=? m)%N then (n, k) :: l else (m, k') :: insert_index n k rest
  end.

(** The keys that are array indices, in ascending order of the index. *)
Definition index_keys (ks : list string) : list (N * string) :=
  fold_right
    (fun k acc =>
       match array_index k with
       | Some n => insert_index n k acc
       | None => acc
       end) [] ks.

Definition other_keys (ks : list string) : list string :=
  filter (fun k => match array_index k with Some _ => false | None => true end)
    ks.

(** [Object.keys(value)]: of an object, the keys that are array indices
    first, in ascending order, then the other keys in the order of
    insertion. *)
Definition keys (v : value) : list string :=
  match v with
  | VObject props =>
      map snd (index_keys (map fst props)) ++ other_keys (map fst props)
  | VArray elems => map string_of_nat (seq 0 (List.length elems))
  | _ => []
  end.

(** Whether [`${value}`] returns.  The conversion of an object looks up
    [toString]; an own [toString] that is not a function (all that a
    parsed document can hold) is skipped, [valueOf] then returns the
    object itself, and the conversion throws a TypeError.  An array is
    joined, which converts each element that is not [null] or
    [undefined]. *)
Fixpoint printable (v : value) : bool :=
  match v with
  | VArray elems =>
      (fix all (l : list value) : bool :=
         match l with
         | [] => true
         | x :: rest => printable x && all rest
         end) elems
  | VObject props => negb (existsb (String.eqb "toString") (map fst props))
  | _ => true
  end.

(** The message of that TypeError (the wording is the engine's). *)
Definition cannot_convert : string :=
  "Cannot convert object to primitive value".

(** [Object.values(o)] of an object of strings, such as a string enum. *)
Definition Object_values (o : list (string * string)) : list string :=
  map snd o.

(** The mutable part of the heap: the [lastIndex] slot of each [RegExp]
    object, by the object's identity. *)
Definition store : Type := nat -> nat.

Definition store_set (st : store) (l i : nat) : store :=
  fun l' => if Nat.eqb l' l then i else st l'.

Inductive completion (A : Type) : Type :=
| Normal (a : A)
| Throw (message : string).
Arguments Normal {A} a.
Arguments Throw {A} message.

(** Computations: read and write the store, return or throw. *)
Definition M (A : Type) : Type := store -> completion A * store.

Definition ret {A} (a : A) : M A := fun st => (Normal a, st).

Definition throw {A} (message : string) : M A := fun st => (Throw message, st).

Definition bind {A B} (m : M A) (k : A -> M B) : M B :=
  fun st =>
    match m st with
    | (Normal a, st') => k a st'
    | (Throw e, st') => (Throw e, st')
    end.

(** [try { m } catch (error) { h(error.message) }]. *)
Definition try_catch {A} (m : M A) (h : string -> M A) : M A :=
  fun st =>
    match m st with
    | (Normal a, st') => (Normal a, st')
    | (Throw e, st') => h e st'
    end.

End JS.

Import JS.

Notation "x <- m ;; k" := (bind m (fun x => k))
(at level 61, m at next level, right associativity).

(* ================================================================== *)
(** ** Regular expressions and [RegExp] objects *)

Module Regex.

(** The body of a pattern.  A class is a list of inclusive ranges, as in
    the literal: [[a-z0-9-*~]] is
    [[("a","z"); ("0","9"); ("-","-"); ("*","*"); ("~","~")]]. *)
Inductive regex : Type :=
| Void
| Eps
| Chr (c : ascii)
| Class (ranges : list (ascii * ascii))
| Cat (r1 r2 : regex)
| Alt (r1 r2 : regex)
| Star (r : regex).

(** [r?] and [r+]. *)
Definition Opt (r : regex) : regex := Alt Eps r.
Definition Plus (r : regex) : regex := Cat r (Star r).

Definition in_range (c : ascii) (range : ascii * ascii) : bool :=
  (nat_of_ascii (fst range) <=? nat_of_ascii c)
  && (nat_of_ascii c <=? nat_of_ascii (snd range)).

Definition in_class (c : ascii) (ranges : list (ascii * ascii)) : bool :=
  existsb (in_range c) ranges.

Fixpoint nullable (r : regex) : bool :=
  match r with
  | Void => false
  | Eps => true
  | Chr _ => false
  | Class _ => false
  | Cat r1 r2 => nullable r1 && nullable r2
  | Alt r1 r2 => nullable r1 || nullable r2
  | Star _ => true
  end.

(** Brzozowski derivative. *)
Fixpoint deriv (c : ascii) (r : regex) : regex :=
  match r with
  | Void => Void
  | Eps => Void
  | Chr c' => if Ascii.eqb c c' then Eps else Void
  | Class ranges => if in_class c ranges then Eps else Void
  | Cat r1 r2 =>
      if nullable r1
      then Alt (Cat (deriv c r1) r2) (deriv c r2)
      else Cat (deriv c r1) r2
  | Alt r1 r2 => Alt (deriv c r1) (deriv c r2)
  | Star r1 => Cat (deriv c r1) (Star r1)
  end.

(** Whole-string match of the body: what [/^body$/] decides. *)
Fixpoint matches (r : regex) (s : string) : bool :=
  match s with
  | EmptyString => nullable r
  | String c rest => matches (deriv c r) rest
  end.

(** The language of a pattern body. *)
Inductive lang : regex -> string -> Prop :=
| lang_eps : lang Eps EmptyString
| lang_chr c : lang (Chr c) (String c EmptyString)
| lang_class c ranges :
    in_class c ranges = true -> lang (Class ranges) (String c EmptyString)
| lang_cat r1 r2 s1 s2 :
    lang r1 s1 -> lang r2 s2 -> lang (Cat r1 r2) (s1 ++ s2)
| lang_alt_l r1 r2 s : lang r1 s -> lang (Alt r1 r2) s
| lang_alt_r r1 r2 s : lang r2 s -> lang (Alt r1 r2) s
| lang_star_nil r : lang (Star r) EmptyString
| lang_star_app r s1 s2 :
    lang r s1 -> lang (Star r) s2 -> lang (Star r) (s1 ++ s2).

(** A [RegExp] object for a literal [/^body$/flags] (no [m] flag: the
    anchors are those of the whole input).  [loc] is the object's
    identity, under which the store keeps its [lastIndex]. *)
Record RegExp : Type := mkRegExp {
  body : regex;
  global : bool;
  sticky : bool;
  unicode : bool;
  loc : nat
}.

(** [regexp.test(s)] (RegExpBuiltinExec).  Without [g] and [y] the search
    starts at 0 and [lastIndex] is neither read nor written.  With one
    of them it starts at [lastIndex]; since [^] only matches at index 0,
    a start after 0 fails; a failure resets [lastIndex] to 0 and a
    success moves it to the end of the match. *)
Definition test (r : RegExp) (s : string) : M bool :=
  fun st =>
    if global r || sticky r then
      let lastIndex := st (loc r) in
      if (lastIndex =? 0) && matches (body r) s
      then (Normal true, store_set st (loc r) (String.length s))
      else (Normal false, store_set st (loc r) 0)
    else (Normal (matches (body r) s), st).

End Regex.

Import Regex.

(** [span lo hi] is the range [lo-hi] of a class, [single c] the lone
    character [c]. *)
Definition span (lo hi : ascii) : ascii * ascii := (lo, hi).
Definition single (c : ascii) : ascii * ascii := (c, c).

(* ================================================================== *)
(** ** [semver]: [valid] *)

Module Semver.

(** The tokens of the package's [internal/re.js] that make the strict
    pattern. *)

(** [\d]. *)
Definition digit : regex := Class [span "0" "9"].

(** NUMERICIDENTIFIER: [0|[1-9]\d*]. *)
Definition numeric_identifier : regex :=
  Alt (Chr "0") (Cat (Class [span "1" "9"]) (Star digit)).

(** [[a-zA-Z0-9-]]. *)
Definition identifier_character : regex :=
  Class [span "0" "9"; span "a" "z"; span "A" "Z"; single "-"].

(** [[a-zA-Z-]]. *)
Definition non_digit : regex :=
  Class [span "a" "z"; span "A" "Z"; single "-"].

(** PRERELEASEIDENTIFIER: NUMERICIDENTIFIER, or NONNUMERICIDENTIFIER
    [\d*[a-zA-Z-][a-zA-Z0-9-]*]. *)
Definition prerelease_identifier : regex :=
  Alt numeric_identifier
      (Cat (Star digit) (Cat non_digit (Star identifier_character))).

(** BUILDIDENTIFIER: [[0-9A-Za-z-]+]. *)
Definition build_identifier : regex := Plus identifier_character.

Definition dot_separated (r : regex) : regex :=
  Cat r (Star (Cat (Chr ".") r)).

(** MAINVERSION: three numeric identifiers separated by dots. *)
Definition version_core : regex :=
  Cat numeric_identifier
      (Cat (Chr ".") (Cat numeric_identifier (Cat (Chr ".") numeric_identifier))).

(** MAINVERSION PRERELEASE? BUILD?, which is also the <valid semver> of
    the semver 2.0 grammar: the core, then optionally ["-"] and
    dot-separated pre-release identifiers, then optionally ["+"] and
    dot-separated build identifiers. *)
Definition valid_semver : regex :=
  Cat version_core
      (Cat (Opt (Cat (Chr "-") (dot_separated prerelease_identifier)))
           (Opt (Cat (Chr "+") (dot_separated build_identifier)))).

(** The body of FULL, [^v?MAINVERSION PRERELEASE? BUILD?$]. *)
Definition FULL : regex := Cat (Opt (Chr "v")) valid_semver.

Definition MAX_LENGTH : nat := 256.

(** [Number.MAX_SAFE_INTEGER]. *)
Definition MAX_SAFE_INTEGER : N := 9007199254740991.

Definition is_digit (c : ascii) : bool :=
  (nat_of_ascii "0" <=? nat_of_ascii c) && (nat_of_ascii c <=? nat_of_ascii "9").

(** The number that the leading digits of [s] write, and what follows
    them. *)
Fixpoint read_number (s : string) (acc : N) : N * string :=
  match s with
  | EmptyString => (acc, EmptyString)
  | String c rest =>
      if is_digit c
      then read_number rest (acc * 10 + N.of_nat (nat_of_ascii c - 48))%N
      else (acc, s)
  end.

Definition skip (s : string) : string :=
  match s with
  | EmptyString => EmptyString
  | String _ rest => rest
  end.

(** The numbers [+m[1]], [+m[2]] and [+m[3]] of a version that matches
    FULL. *)
Definition main_version (version : string) : N * N * N :=
  let s := match version with
           | String "v" rest => rest
           | _ => version
           end in
  let (major, after_major) := read_number s 0 in
  let (minor, after_minor) := read_number (skip after_major) 0 in
  let (patch, _) := read_number (skip after_minor) 0 in
  (major, minor, patch).

Definition safe (version : string) : bool :=
  let '(major, minor, patch) := main_version version in
  ((major <=? MAX_SAFE_INTEGER) && (minor <=? MAX_SAFE_INTEGER)
   && (patch <=? MAX_SAFE_INTEGER))%N.

(** What is before the first ["+"]. *)
Fixpoint without_build (s : string) : string :=
  match s with
  | EmptyString => EmptyString
  | String c rest =>
      if Ascii.eqb c "+" then EmptyString else String c (without_build rest)
  end.

(** [valid(version)] of the [semver] package (release 7.3), which
    [types.ts] imports as [validSemver]; the package is a dependency and
    its source is not part of this repository.  [valid] answers
    [parse(version).version], or [null] (here [None]) when [parse] does:
    for a string of more than 256 characters, for one that FULL does not
    match, and for one whose major, minor or patch exceeds
    [MAX_SAFE_INTEGER] (the constructor of [SemVer] throws, [parse]
    catches).  The [version] of a parsed string is the string without
    its leading ["v"] and its build metadata.  [parse] tests the string
    as it is given; a release that first trims it (7.5 and later) differs
    on strings with white space around them. *)
Definition valid (version : string) : option string :=
  if String.length version <=? MAX_LENGTH then
    if matches FULL version then
      if safe version then
        Some (without_build
                (match version with
                 | String "v" rest => rest
                 | _ => version
                 end))
      else None
    else None
  else None.

End Semver.

(* ================================================================== *)
(** ** [superstruct] *)

Module Superstruct.

(** What a failed check reports: the value, the struct's type, the name of
    the refinement that failed (if it was one) and the path to the value. *)
Record Failure : Type := mkFailure {
  failure_value : value;
  failure_type : string;
  refinement : option string;
  path : list string
}.

(** What a validator or a refiner answers: [true], [false], or the
    message of the failure. *)
Inductive Result : Type :=
| Valid
| Invalid
| Message.

Definition Result_of_bool (b : bool) : Result :=
  if b then Valid else Invalid.

(** [print(value)]: [JSON.stringify] for a string, [`${value}`] for
    anything else, which throws on a value that cannot be converted.
    (The text that is printed plays no part below.) *)
Definition print (v : value) : M unit :=
  if printable v then ret tt else throw cannot_convert.

(** [toFailure(result, context, struct, value)], as whether no failure
    comes out: [false] gets the default message, which prints the value;
    a message is taken as it is. *)
Definition toFailure (r : Result) (v : value) : M bool :=
  match r with
  | Valid => ret true
  | Invalid => _ <- print v ;; ret false
  | Message => ret false
  end.

(** A struct: its type name, the sub-values it descends into with the
    struct of each, its validator as the constructor of [Struct] wraps it
    (whether it yields no failure), and its refiner, which answers with
    the name of the first refinement that fails.  Validators and refiners
    are callbacks: they may throw or touch the store. *)
Inductive Struct : Type :=
| mkStruct (type_name : string)
    (entries : value -> list (string * value * Struct))
    (validator : value -> M bool)
    (refiner : value -> M (option string)).

Definition struct_type (s : Struct) : string :=
  match s with mkStruct t _ _ _ => t end.
Definition struct_entries (s : Struct) : value -> list (string * value * Struct) :=
  match s with mkStruct _ e _ _ => e end.
Definition struct_validator (s : Struct) : value -> M bool :=
  match s with mkStruct _ _ v _ => v end.
Definition struct_refiner (s : Struct) : value -> M (option string) :=
  match s with mkStruct _ _ _ r => r end.

(** [run(value, struct)] up to its first yield, which is all that
    [validate], [is] and [assert] pull from the generator: the struct's
    validator, then each entry in order, then (nothing having failed) the
    refiner.  The result is the first failure, or [None] when the
    generator's first yield is the valid value; an exception thrown on
    the way goes through. *)
Fixpoint run (s : Struct) (v : value) (p : list string) {struct s}
  : M (option Failure) :=
  match s with
  | mkStruct t entries validator refiner =>
      ok <- validator v ;;
      if ok then
        r <- (fix each (l : list (string * value * Struct)) : M (option Failure) :=
                match l with
                | [] => ret None
                | (k, x, s') :: rest =>
                    r <- run s' x (p ++ [k])%list ;;
                    match r with
                    | Some f => ret (Some f)
                    | None => each rest
                    end
                end) (entries v) ;;
        match r with
        | Some f => ret (Some f)
        | None =>
            n <- refiner v ;;
            match n with
            | Some name => ret (Some (mkFailure v t (Some name) p))
            | None => ret None
            end
        end
      else ret (Some (mkFailure v t None p))
  end.

Definition validate (v : value) (s : Struct) : M (option Failure) :=
  run s v [].

(** [is(value, struct)]: [!validate(value, struct)[0]] ([is] is a
    reserved word here). *)
Definition is_ (v : value) (s : Struct) : M bool :=
  r <- validate v s ;;
  ret (match r with Some _ => false | None => true end).

(** [define(name, validator)]. *)
Definition define (name : string) (validator : value -> M Result) : Struct :=
  mkStruct name (fun _ => [])
    (fun v => r <- validator v ;; toFailure r v)
    (fun _ => ret None).

(** [never()]: the validator answers [false]. *)
Definition never : Struct := define "never" (fun _ => ret Invalid).

(** [refine(struct, name, refiner)]: the struct's own refiner first, then
    the new one. *)
Definition refine (s : Struct) (name : string) (refiner : value -> M Result)
  : Struct :=
  mkStruct (struct_type s) (struct_entries s) (struct_validator s)
    (fun v =>
       r <- struct_refiner s v ;;
       match r with
       | Some n => ret (Some n)
       | None =>
           result <- refiner v ;;
           ok <- toFailure result v ;;
           ret (if ok then None else Some name)
       end).

(** [pattern(struct, regexp)]: refined by
    [regexp.test(value) || `Expected ... but received "${value}"`].  On a
    value that is not a string JavaScript would first convert it; the
    model does not follow that conversion and raises instead (the branch
    is behind the struct's validator and never runs in this file). *)
Definition pattern (s : Struct) (regexp : RegExp) : Struct :=
  refine s "pattern"
    (fun v =>
       match v with
       | VString x =>
           matched <- Regex.test regexp x ;;
           ret (if matched then Valid else Message)
       | _ => throw "pattern: conversion to string not modelled"
       end).

(** The upper bound of [size]: a number or [Infinity]. *)
Inductive bound : Type :=
| Finite (n : nat)
| Infinity.

Definition leb_bound (n : nat) (b : bound) : bool :=
  match b with Finite m => n <=? m | Infinity => true end.

Definition within (min : nat) (max : bound) (n : Z) : bool :=
  (Z.of_nat min <=? n)%Z
  && match max with Finite m => (n <=? Z.of_nat m)%Z | Infinity => true end.

Definition sized (b : bool) : Result := if b then Valid else Message.

(** [size(struct, min, max)]: a number is compared itself, a string or an
    array by its [length]; the refiner answers [true] or a message.
    [const { length } = value] throws a TypeError on [undefined] and
    [null]; a boolean has no [length] and fails the comparison; an object
    is compared by its [length] property when that is absent or a number
    (other values of the property would be converted to a number, which
    the model does not follow and raises instead; no struct of this file
    reaches that branch). *)
Definition size (s : Struct) (min : nat) (max : bound) : Struct :=
  refine s "size"
    (fun v =>
       match v with
       | VNumber n => ret (sized (within min max n))
       | VString x =>
           ret (sized ((min <=? String.length x)
                       && leb_bound (String.length x) max))
       | VArray l =>
           ret (sized ((min <=? List.length l)
                       && leb_bound (List.length l) max))
       | VBool _ => ret Message
       | VObject props =>
           match lookup "length" props with
           | VUndefined => ret Message
           | VNumber n => ret (sized (within min max n))
           | _ => throw "size: conversion to number not modelled"
           end
       | VUndefined | VNull =>
           throw "Cannot destructure property 'length'"
       end).

(** [optional(struct)]: [undefined] passes the validator and the refiner;
    the entries are the struct's own. *)
Definition optional (s : Struct) : Struct :=
  mkStruct (struct_type s) (struct_entries s)
    (fun v => if isUndefined v then ret true else struct_validator s v)
    (fun v => if isUndefined v then ret None else struct_refiner s v).

(** The validator of [type] and of [object]:
    [isObject(value) || `Expected an object, but received: ${print(value)}`]. *)
Definition object_validator (v : value) : M bool :=
  r <- (if isObject v then ret Valid else _ <- print v ;; ret Message) ;;
  toFailure r v.

(** [type(schema)]: an object, checked at the schema's keys only. *)
Definition type (schema : list (string * Struct)) : Struct :=
  mkStruct "type"
    (fun v =>
       if isObject v
       then map (fun ks => (fst ks, getProp v (fst ks), snd ks)) schema
       else [])
    object_validator
    (fun _ => ret None).

Definition is_known (schema : list (string * Struct)) (k : string) : bool :=
  existsb (String.eqb k) (map fst schema).

(** [new Set(Object.keys(value))] minus the schema's keys, in order. *)
Fixpoint unknowns (schema : list (string * Struct)) (seen ks : list string)
  : list string :=
  match ks with
  | [] => []
  | k :: rest =>
      if is_known schema k || existsb (String.eqb k) seen
      then unknowns schema seen rest
      else k :: unknowns schema (k :: seen) rest
  end.

(** [object(schema)]: an object, checked at the schema's keys, and every
    other key of the value is checked against [never()]. *)
Definition object (schema : list (string * Struct)) : Struct :=
  mkStruct "object"
    (fun v =>
       if isObject v
       then (map (fun ks => (fst ks, getProp v (fst ks), snd ks)) schema
             ++ map (fun k => (k, getProp v k, never))
                    (unknowns schema [] (keys v)))%list
       else [])
    object_validator
    (fun _ => ret None).

Section Assert.

(** The message superstruct composes for a failure (it prints the value
    received); its wording plays no part below. *)
Variable describe : Failure -> string.

Fixpoint join (sep : string) (l : list string) : string :=
  match l with
  | [] => EmptyString
  | [x] => x
  | x :: rest => x ++ sep ++ join sep rest
  end.

(** The message of a [StructError]. *)
Definition StructError_message (f : Failure) : string :=
  match path f with
  | [] => describe f
  | _ => "At path: " ++ join "." (path f) ++ " -- " ++ describe f
  end.

(** [assert(value, struct)]: throws the [StructError] of the first
    failure. *)
Definition assert (v : value) (s : Struct) : M unit :=
  r <- validate v s ;;
  match r with
  | Some f => throw (StructError_message f)
  | None => ret tt
  end.

End Assert.

(** [string()]: the validator is
    [typeof value === 'string' || `Expected a string, but received: ${print(value)}`]. *)
Definition string : Struct :=
  define "string"
    (fun v => if isString v then ret Valid else _ <- print v ;; ret Message).

End Superstruct.
(* ================================================================== *)
(** ** [@metamask/utils]: [assertStruct] *)

Module Utils.

(** [getErrorMessage]: the error's message without a final period. *)
Fixpoint getErrorMessage (message : string) : string :=
  match message with
  | EmptyString => EmptyString
  | String c rest =>
      match rest with
      | EmptyString => if Ascii.eqb c "." then EmptyString else message
      | _ => String c (getErrorMessage rest)
      end
  end.

(** [assertStruct(value, struct, errorPrefix)]: whatever
    [assert(value, struct)] throws is rethrown as
    [`${errorPrefix}: ${getErrorMessage(error)}.`]. *)
Definition assertStruct (describe : Superstruct.Failure -> string)
  (v : value) (s : Superstruct.Struct) (errorPrefix : string) : M unit :=
  try_catch (Superstruct.assert describe v s)
    (fun e => throw (errorPrefix ++ ": " ++ getErrorMessage e ++ ".")).

End Utils.

(* ================================================================== *)
(** ** [types.ts] *)

Module Types.

Import Superstruct.

(** A double quote, for the template literal of the assertion message. *)
Definition dquote : String.string := String "034" EmptyString.

(** [enum NpmSnapFileNames]: a string enum, whose members are their
    strings at run time. *)
Module NpmSnapFileNames.
Definition PackageJson : String.string := "package.json".
Definition Manifest : String.string := "snap.manifest.json".
End NpmSnapFileNames.

(** [VersionStruct]: a string refined by [validSemver(value) !== null].
    ([validSemver] answers [null] for anything that is not a string.) *)
Definition VersionStruct : Struct :=
  refine string "Version"
    (fun v =>
       match v with
       | VString version =>
           ret (Result_of_bool
                  (match Semver.valid version with
                   | Some _ => true
                   | None => false
                   end))
       | _ => ret Invalid
       end).

(** The body of
    [/^(?:@[a-z0-9-*~][a-z0-9-*._~]*\/)?[a-z0-9-~][a-z0-9-._~]*$/u]. *)
Definition name_pattern : regex :=
  Cat (Opt (Cat (Chr "@")
              (Cat (Class [span "a" "z"; span "0" "9"; single "-"; single "*";
                           single "~"])
                 (Cat (Star (Class [span "a" "z"; span "0" "9"; single "-";
                                    single "*"; single "."; single "_";
                                    single "~"]))
                    (Chr "/")))))
      (Cat (Class [span "a" "z"; span "0" "9"; single "-"; single "~"])
         (Star (Class [span "a" "z"; span "0" "9"; single "-"; single ".";
                       single "_"; single "~"]))).

(** The [RegExp] object of the literal: flag [u] only.  It is the first
    (and only) one the module creates. *)
Definition name_regexp : RegExp :=
  {| body := name_pattern; global := false; sticky := false; unicode := true;
     loc := 0 |}.

Definition NameStruct : Struct :=
  size (pattern string name_regexp) 1 (Finite 214).

(** [type], not [object]: "the latter does not allow unknown keys". *)
Definition NpmSnapPackageJsonStruct : Struct :=
  type
    [ ("version", VersionStruct);
      ("name", NameStruct);
      ("main", optional (size string 1 Infinity));
      ("repository",
        optional
          (object
             [ ("type", size string 1 Infinity);
               ("url", size string 1 Infinity) ])) ].

Definition isNpmSnapPackageJson (v : value) : M bool :=
  is_ v NpmSnapPackageJsonStruct.

Definition assertIsNpmSnapPackageJson
  (describe : Failure -> String.string) (v : value) : M unit :=
  Utils.assertStruct describe v NpmSnapPackageJsonStruct
    (dquote ++ NpmSnapFileNames.PackageJson ++ dquote ++ " is invalid").

(** [enum SnapIdPrefixes]. *)
Module SnapIdPrefixes.
Definition npm : String.string := "npm:".
Definition local : String.string := "local:".
End SnapIdPrefixes.

(** [enum HandlerType], as the object it is at run time: member names
    and their strings, in the order of declaration. *)
Definition HandlerType : list (String.string * String.string) :=
  [ ("OnRpcRequest", "onRpcRequest");
    ("OnTransaction", "onTransaction");
    ("SnapKeyring", "keyring");
    ("OnCronjob", "onCronjob") ].

Definition SNAP_EXPORT_NAMES : list String.string := Object_values HandlerType.

End Types.

Import Types.

(* ================================================================== *)
(** ** Vocabulary of the statements *)

(** [m] returns [a] from every store, and leaves the store as it was. *)
Definition returns {A : Type} (m : M A) (a : A) : Prop :=
  forall st, m st = (Normal a, st).

(** [m] throws an error with message [message], from every store and
    without writing the store. *)
Definition throws {A : Type} (m : M A) (message : string) : Prop :=
  forall st, m st = (Throw message, st).

(** The entries loop of [run], on its own. *)
Fixpoint run_entries (l : list (string * value * Superstruct.Struct))
  (p : list string) : M (option Superstruct.Failure) :=
  match l with
  | [] => ret None
  | (k, x, s') :: rest =>
      r <- Superstruct.run s' x (p ++ [k])%list ;;
      match r with
      | Some f => ret (Some f)
      | None => run_entries rest p
      end
  end.

(** How a check of a value ends: the value passes, a failure is
    reported, or printing the value for the report throws. *)
Inductive verdict : Type :=
| Pass
| Fail
| Raise.

(** Checks run in order and stop at the first that does not pass. *)
Definition and_then (a b : verdict) : verdict :=
  match a with
  | Pass => b
  | _ => a
  end.

(** A failure whose message prints the value. *)
Definition reported (v : value) : verdict :=
  if printable v then Fail else Raise.

(** A run of a struct, or of a refiner, that ends as the verdict says:
    with no failure, with one, or by throwing. *)
Definition outcome {A : Type} (m : M (option A)) (o : verdict) : Prop :=
  match o with
  | Pass => returns m None
  | Fail => exists f, returns m (Some f)
  | Raise => throws m cannot_convert
  end.

(** A validator or a predicate that answers as the verdict says. *)
Definition answers (m : M bool) (o : verdict) : Prop :=
  match o with
  | Pass => returns m true
  | Fail => returns m false
  | Raise => throws m cannot_convert
  end.

(** Struct [s] decides [check]: on every value and at every path, running
    it ends as [check] says of the value, and leaves the store alone. *)
Definition decides (s : Superstruct.Struct) (check : value -> verdict) : Prop :=
  forall v p, outcome (Superstruct.run s v p) (check v).

(** How the result of a validator or refiner ends the check of [v]. *)
Definition result_verdict (r : Superstruct.Result) (v : value) : verdict :=
  match r with
  | Superstruct.Valid => Pass
  | Superstruct.Invalid => reported v
  | Superstruct.Message => Fail
  end.

(** The check of a refined [string()]: a string passes when [ok] holds of
    it; anything else is reported, and printed for that. *)
Definition refined (ok : value -> bool) (v : value) : verdict :=
  if isString v then (if ok v then Pass else Fail) else reported v.

Definition optional_check (check : value -> verdict) (v : value) : verdict :=
  if isUndefined v then Pass else check v.

(** The checks of a schema's structs, each at its key of [v], in order. *)
Definition fields_check (schema : list (string * Superstruct.Struct))
  (checks : list (value -> verdict)) (v : value) : verdict :=
  fold_right (fun kc rest => and_then (snd kc (getProp v (fst kc))) rest) Pass
    (combine (map fst schema) checks).

(** The check of the keys outside the schema: the first one, if any, is
    reported with its value. *)
Definition unknown_check (schema : list (string * Superstruct.Struct))
  (v : value) : verdict :=
  match Superstruct.unknowns schema [] (keys v) with
  | [] => Pass
  | k :: _ => reported (getProp v k)
  end.

Fixpoint all_chars (f : ascii -> bool) (s : string) : bool :=
  match s with
  | EmptyString => true
  | String c rest => f c && all_chars f rest
  end.

Fixpoint has_char (c : ascii) (s : string) : bool :=
  match s with
  | EmptyString => false
  | String c' rest => Ascii.eqb c c' || has_char c rest
  end.


(** What the refinements of [size] and [pattern] check of a string. *)
Definition size_check (min : nat) (max : Superstruct.bound) (v : value) : bool :=
  match v with
  | VString x =>
      (min <=? String.length x) && Superstruct.leb_bound (String.length x) max
  | _ => false
  end.

Definition pattern_check (regexp : RegExp) (v : value) : bool :=
  match v with
  | VString x => matches (body regexp) x
  | _ => false
  end.

(** Every key of [v] is a key of the schema. *)
Definition only_known (schema : list (string * Superstruct.Struct))
  (v : value) : bool :=
  forallb (Superstruct.is_known schema) (keys v).

(** What each struct of [types.ts] accepts, as a boolean. *)
Definition version_ok (v : value) : bool :=
  match v with
  | VString s =>
      match Semver.valid s with
      | Some _ => true
      | None => false
      end
  | _ => false
  end.

Definition name_ok (v : value) : bool :=
  match v with
  | VString s =>
      matches name_pattern s && ((1 <=? String.length s) && (String.length s <=? 214))
  | _ => false
  end.

Definition nonempty_string (v : value) : bool :=
  match v with
  | VString s => 1 <=? String.length s
  | _ => false
  end.

Definition repository_schema : list (string * Superstruct.Struct) :=
  [ ("type", Superstruct.size Superstruct.string 1 Superstruct.Infinity);
    ("url", Superstruct.size Superstruct.string 1 Superstruct.Infinity) ].

Definition repository_ok (r : value) : bool :=
  isObject r
  && ((nonempty_string (getProp r "type")
       && (nonempty_string (getProp r "url") && true))
      && only_known repository_schema r).

Definition metadata_ok (v : value) : bool :=
  isObject v
  && (version_ok (getProp v "version")
      && (name_ok (getProp v "name")
          && ((isUndefined (getProp v "main")
               || nonempty_string (getProp v "main"))
              && ((isUndefined (getProp v "repository")
                   || repository_ok (getProp v "repository"))
                  && true)))).

(** How each struct of [types.ts] ends the check of a value. *)
Definition repository_check (r : value) : verdict :=
  if isObject r then
    and_then (refined nonempty_string (getProp r "type"))
      (and_then (refined nonempty_string (getProp r "url"))
         (unknown_check repository_schema r))
  else reported r.

Definition metadata_check (v : value) : verdict :=
  if isObject v then
    and_then (refined version_ok (getProp v "version"))
      (and_then (refined name_ok (getProp v "name"))
         (and_then (optional_check (refined nonempty_string) (getProp v "main"))
            (optional_check repository_check (getProp v "repository"))))
  else reported v.

(** What a predicate gives for a verdict. *)
Definition verdict_completion (o : verdict) : completion bool :=
  match o with
  | Pass => Normal true
  | Fail => Normal false
  | Raise => Throw cannot_convert
  end.

(** The package-name grammar, in the words of the specification: an
    optional scope segment [@<scope>/], then a name segment. *)
Module Grammar.

Definition is_lower (c : ascii) : bool :=
  (nat_of_ascii "a" <=? nat_of_ascii c) && (nat_of_ascii c <=? nat_of_ascii "z").

Definition is_digit (c : ascii) : bool :=
  (nat_of_ascii "0" <=? nat_of_ascii c) && (nat_of_ascii c <=? nat_of_ascii "9").

Definition one_of (chars : string) (c : ascii) : bool := has_char c chars.

(** A scope starts with a lowercase letter, a digit, [-], [*] or [~] ... *)
Definition scope_start (c : ascii) : bool :=
  is_lower c || is_digit c || one_of "-*~" c.

(** ... and continues with those plus [.] and [_]. *)
Definition scope_rest (c : ascii) : bool :=
  scope_start c || one_of "._" c.

(** A name starts as a scope does, minus [*] ... *)
Definition name_start (c : ascii) : bool :=
  is_lower c || is_digit c || one_of "-~" c.

(** ... and continues with lowercase letters, digits and [-._~]. *)
Definition name_rest (c : ascii) : bool :=
  is_lower c || is_digit c || one_of "-._~" c.

Definition segment (start rest : ascii -> bool) (s : string) : bool :=
  match s with
  | EmptyString => false
  | String c tl => start c && all_chars rest tl
  end.

Definition package_name (s : string) : Prop :=
  segment name_start name_rest s = true
  \/ exists scope name,
       s = String "@" (scope ++ String "/" name)
       /\ segment scope_start scope_rest scope = true
       /\ segment name_start name_rest name = true.

End Grammar.

(** The predicate of a struct: [is(value, struct)] answers [true]
    (answers [false]) from every store, without throwing and without
    writing the store. *)
Definition accepts (s : Superstruct.Struct) (v : value) : Prop :=
  returns (Superstruct.is_ v s) true.

Definition rejects (s : Superstruct.Struct) (v : value) : Prop :=
  returns (Superstruct.is_ v s) false.

(** The characters that [trim] may remove: the white space and line
    terminators of ASCII, and the units above 127, which stand for
    everything outside ASCII, white space included. *)
Definition is_white_space (c : ascii) : bool :=
  let n := nat_of_ascii c in
  ((9 <=? n) && (n <=? 13)) || (n =? 32) || (128 <=? n).

Fixpoint last_char (s : string) : option ascii :=
  match s with
  | EmptyString => None
  | String c EmptyString => Some c
  | String _ rest => last_char rest
  end.

(** A string that neither starts nor ends with white space, so that
    [trim] leaves it as it is. *)
Definition trimmed (s : string) : bool :=
  match s, last_char s with
  | String c _, Some d => negb (is_white_space c) && negb (is_white_space d)
  | _, _ => true
  end.

(** A version as [semver] takes it: at most 256 characters, an optional
    leading ["v"], then a valid semantic version of the semver 2.0
    grammar, with major, minor and patch numbers no larger than
    [2^53 - 1]. *)
Definition semver_string (s : string) : Prop :=
  String.length s <= 256
  /\ (exists s', (s = s' \/ s = String "v" s') /\ lang Semver.valid_semver s')
  /\ Semver.safe s = true.

(** A value that cannot be converted to a string. *)
Definition unprintable : value := VObject [("toString", VNumber 0)].

(** Every value that a failed check of [v] would print can be printed:
    [version], [name], [main] and what the keys of [repository] hold. *)
Definition printable_fields (v : value) : bool :=
  printable (getProp v "version")
  && printable (getProp v "name")
  && printable (getProp v "main")
  && forallb (fun k => printable (getProp (getProp v "repository") k))
       ("type" :: "url" :: keys (getProp v "repository")).

(** A field is present when reading it does not give [undefined]. *)
Definition present (x : value) : Prop := x <> VUndefined.

(** "an object with non-empty string [type] and [url]". *)
Definition repository_shape (r : value) : Prop :=
  isObject r = true
  /\ nonempty_string (getProp r "type") = true
  /\ nonempty_string (getProp r "url") = true.

(** No key besides [type] and [url]. *)
Definition repository_closed (r : value) : Prop :=
  forall k, In k (keys r) -> k = "type" \/ k = "url".

(** Package metadata as the specification words it: the repository, if
    present, only has to have the two fields. *)
Definition metadata_as_claimed (v : value) : Prop :=
  isObject v = true
  /\ accepts VersionStruct (getProp v "version")
  /\ accepts NameStruct (getProp v "name")
  /\ (present (getProp v "main") -> nonempty_string (getProp v "main") = true)
  /\ (present (getProp v "repository") ->
      repository_shape (getProp v "repository")).

(** Package metadata as the struct has it: the repository, if present, has
    the two fields and no other key. *)
Definition package_metadata (v : value) : Prop :=
  isObject v = true
  /\ accepts VersionStruct (getProp v "version")
  /\ accepts NameStruct (getProp v "name")
  /\ (present (getProp v "main") -> nonempty_string (getProp v "main") = true)
  /\ (present (getProp v "repository") ->
      repository_shape (getProp v "repository")
      /\ repository_closed (getProp v "repository")).

Fixpoint repeat_char (c : ascii) (n : nat) : string :=
  match n with
  | 0 => EmptyString
  | S n' => String c (repeat_char c n')
  end.

(** The text ["package.json" is invalid], quotes included. *)
Definition invalid_package_json : string :=
  String "034" ("package.json" ++ String "034" " is invalid").

(** Sample values. *)
Definition minimal_metadata : list (string * value) :=
  [("version", VString "1.2.3"); ("name", VString "a")].

Definition git_repository : list (string * value) :=
  [("type", VString "git"); ("url", VString "https://example.com/snap.git")].

(** A [RegExp] like that of [NameStruct], but with the [g] flag. *)
Definition global_name_regexp : RegExp :=
  {| body := name_pattern; global := true; sticky := false; unicode := true;
     loc := 0 |}.

(** The type [NpmSnapPackageJson] that the guard and the assertion
    promise: [Infer<typeof NpmSnapPackageJsonStruct> & Record<string, any>],
    that is, strings [version] and [name], an optional string [main] and
    an optional [repository] with strings [type] and [url]. *)
Definition NpmSnapPackageJson (v : value) : Prop :=
  isObject v = true
  /\ isString (getProp v "version") = true
  /\ isString (getProp v "name") = true
  /\ (getProp v "main" = VUndefined \/ isString (getProp v "main") = true)
  /\ (getProp v "repository" = VUndefined
      \/ (isObject (getProp v "repository") = true
          /\ isString (getProp (getProp v "repository") "type") = true
          /\ isString (getProp (getProp v "repository") "url") = true)).

(** [delete object[k]]. *)
Definition remove_key (k : string) (props : list (string * value))
  : list (string * value) :=
  filter (fun kv => negb (String.eqb k (fst kv))) props.

(** The characters an accepted name is made of. *)
Definition name_charset (c : ascii) : bool :=
  Grammar.is_lower c || Grammar.is_digit c || Grammar.one_of "-._~*@/" c.

(** The failure that [types.ts] makes superstruct report first for a
    [version] and for a [name] that do not pass. *)
Definition version_failure (x : value) : Superstruct.Failure :=
  Superstruct.mkFailure x "string"
    (if isString x then Some "Version" else None) ["version"].

Definition name_failure (x : value) : Superstruct.Failure :=
  Superstruct.mkFailure x "string"
    (match x with
     | VString s => Some (if matches name_pattern s then "size" else "pattern")
     | _ => None
     end) ["name"].

(** The message [assertStruct] throws for a first failure [f]. *)
Definition assertion_message (describe : Superstruct.Failure -> string)
  (f : Superstruct.Failure) : string :=
  invalid_package_json ++ ": "
  ++ Utils.getErrorMessage (Superstruct.StructError_message describe f) ++ ".".

(** Metadata whose [version] cannot be printed, and metadata whose
    [repository] holds, besides [type] and [url], a key whose value
    cannot be printed. *)
Definition metadata_with_unprintable_version : value :=
  VObject [("version", unprintable); ("name", VString "a")].

Definition metadata_with_unprintable_repository_key : value :=
  VObject (minimal_metadata
           ++ [("repository",
                 VObject (git_repository ++ [("x", unprintable)]))]).

(* ================================================================== *)
(** ** Strings and the regular-expression matcher *)

Lemma append_assoc (s1 s2 s3 : string) : (s1 ++ s2) ++ s3 = s1 ++ (s2 ++ s3).
Proof. induction s1 as [|c s1 IH]; simpl; [reflexivity | now rewrite IH]. Qed.


Lemma append_eq_nil (s1 s2 : string) : s1 ++ s2 = EmptyString -> s1 = EmptyString /\ s2 = EmptyString.
Proof. destruct s1; simpl; intros H; [now split | discriminate]. Qed.

Lemma lang_void_inv (s : string) : ~ lang Void s.
Proof. inversion 1. Qed.

Lemma lang_eps_inv (s : string) : lang Eps s -> s = EmptyString.
Proof. now inversion 1. Qed.

Lemma lang_chr_inv (c : ascii) (s : string) :
  lang (Chr c) s -> s = String c EmptyString.
Proof. now inversion 1. Qed.

Lemma lang_class_inv (rs : list (ascii * ascii)) (s : string) :
  lang (Class rs) s -> exists c, s = String c EmptyString /\ in_class c rs = true.
Proof. inversion 1; subst; eauto. Qed.

Lemma lang_cat_inv (r1 r2 : regex) (s : string) :
  lang (Cat r1 r2) s ->
  exists s1 s2, s = s1 ++ s2 /\ lang r1 s1 /\ lang r2 s2.
Proof. inversion 1; subst; eauto. Qed.

Lemma lang_alt_inv (r1 r2 : regex) (s : string) :
  lang (Alt r1 r2) s -> lang r1 s \/ lang r2 s.
Proof. inversion 1; subst; auto. Qed.

Lemma lang_cons (r1 r2 : regex) (c : ascii) (s1 s2 : string) :
  lang r1 (String c s1) -> lang r2 s2 -> lang (Cat r1 r2) (String c (s1 ++ s2)).
Proof.
  intros H1 H2. change (String c (s1 ++ s2)) with (String c s1 ++ s2).
  now constructor.
Qed.

Lemma nullable_lang (r : regex) : nullable r = true <-> lang r EmptyString.
Proof.
  induction r as [| | c | rs | r1 IH1 r2 IH2 | r1 IH1 r2 IH2 | r IH]; simpl.
  - split; [discriminate | intros H; now apply lang_void_inv in H].
  - split; [constructor | reflexivity].
  - split; [discriminate | intros H; apply lang_chr_inv in H; discriminate].
  - split; [discriminate |].
    intros H. apply lang_class_inv in H as (c & H & _). discriminate.
  - rewrite andb_true_iff, IH1, IH2. split.
    + intros [H1 H2]. change EmptyString with (EmptyString ++ EmptyString). now constructor.
    + intros H. apply lang_cat_inv in H as (s1 & s2 & Hs & H1 & H2).
      symmetry in Hs. apply append_eq_nil in Hs as [-> ->]. now split.
  - rewrite orb_true_iff, IH1, IH2. split.
    + intros [H | H]; [now apply lang_alt_l | now apply lang_alt_r].
    + apply lang_alt_inv.
  - split; [constructor | reflexivity].
Qed.

(** A non-empty word of a star starts with a non-empty word of the body. *)
Lemma lang_star_cons (r : regex) (c : ascii) (s : string) :
  lang (Star r) (String c s) ->
  exists s1 s2, s = s1 ++ s2 /\ lang r (String c s1) /\ lang (Star r) s2.
Proof.
  intros H. remember (Star r) as r' eqn:Er. remember (String c s) as w eqn:Ew.
  revert c s Ew.
  induction H as [| | | | | | | r0 s1 s2 H1 _ H2 IH2]; try discriminate.
  intros c s Ew. injection Er as ->.
  destruct s1 as [|c1 s1]; simpl in Ew.
  - now apply IH2.
  - injection Ew as Hc Hs. subst c1 s. now exists s1, s2.
Qed.

Lemma deriv_lang (r : regex) : forall c s,
  lang (deriv c r) s <-> lang r (String c s).
Proof.
  induction r as [| | c' | rs | r1 IH1 r2 IH2 | r1 IH1 r2 IH2 | r IH];
    intros c s; simpl.
  - split; intros H; now apply lang_void_inv in H.
  - split; intros H; [now apply lang_void_inv in H |].
    apply lang_eps_inv in H. discriminate.
  - destruct (Ascii.eqb_spec c c') as [-> | Hne].
    + split; intros H.
      * apply lang_eps_inv in H as ->. constructor.
      * apply lang_chr_inv in H. injection H as ->. constructor.
    + split; intros H; [now apply lang_void_inv in H |].
      apply lang_chr_inv in H. injection H as H _. now elim Hne.
  - destruct (in_class c rs) eqn:Hc.
    + split; intros H.
      * apply lang_eps_inv in H as ->. now constructor.
      * apply lang_class_inv in H as (c0 & H & _). injection H as _ ->.
        constructor.
    + split; intros H; [now apply lang_void_inv in H |].
      apply lang_class_inv in H as (c0 & H & Hc0). injection H as -> _.
      congruence.
  - assert (Hcat : lang (Cat (deriv c r1) r2) s ->
                   lang (Cat r1 r2) (String c s)).
    { intros H. apply lang_cat_inv in H as (s1 & s2 & -> & H1 & H2).
      apply lang_cons; [now apply IH1 | assumption]. }
    assert (Hinv : lang (Cat r1 r2) (String c s) ->
                   lang (Cat (deriv c r1) r2) s
                   \/ (lang r1 EmptyString /\ lang (deriv c r2) s)).
    { intros H. apply lang_cat_inv in H as (s1 & s2 & Hs & H1 & H2).
      destruct s1 as [|c1 s1]; simpl in Hs.
      - right. subst s2. split; [assumption | now apply IH2].
      - injection Hs as Hc Hs. subst c1 s. left.
        constructor; [now apply IH1 | assumption]. }
    destruct (nullable r1) eqn:Hn.
    + split.
      * intros H. apply lang_alt_inv in H as [H | H]; [now apply Hcat |].
        change (String c s) with (EmptyString ++ String c s).
        constructor; [now apply nullable_lang | now apply IH2].
      * intros H. destruct (Hinv H) as [H' | [_ H']];
          [now apply lang_alt_l | now apply lang_alt_r].
    + split; [exact Hcat |].
      intros H. destruct (Hinv H) as [H' | [H' _]]; [assumption |].
      apply nullable_lang in H'. congruence.
  - split; intros H; apply lang_alt_inv in H as [H | H];
      solve [apply lang_alt_l; now apply IH1 | apply lang_alt_r; now apply IH2].
  - split.
    + intros H. apply lang_cat_inv in H as (s1 & s2 & -> & H1 & H2).
      change (String c (s1 ++ s2)) with (String c s1 ++ s2).
      constructor; [now apply IH | assumption].
    + intros H. apply lang_star_cons in H as (s1 & s2 & -> & H1 & H2).
      constructor; [now apply IH | assumption].
Qed.

(** The matcher decides the language. *)
Lemma matches_lang (s : string) : forall r, matches r s = true <-> lang r s.
Proof.
  induction s as [|c s IH]; intros r; simpl.
  - apply nullable_lang.
  - rewrite IH. apply deriv_lang.
Qed.

(* ================================================================== *)
(** ** Character classes and segments *)

Lemma in_range_single (c d : ascii) : in_range c (single d) = Ascii.eqb c d.
Proof.
  unfold in_range, single; simpl.
  destruct (Ascii.eqb_spec c d) as [-> | Hne].
  - now rewrite Nat.leb_refl.
  - apply andb_false_iff.
    destruct (Nat.leb_spec (nat_of_ascii d) (nat_of_ascii c)) as [H1 | H1];
      [| now left].
    destruct (Nat.leb_spec (nat_of_ascii c) (nat_of_ascii d)) as [H2 | H2];
      [| now right].
    elim Hne. rewrite <- (ascii_nat_embedding c), <- (ascii_nat_embedding d).
    f_equal. lia.
Qed.

Lemma all_chars_ext (f g : ascii -> bool) (s : string) :
  (forall c, f c = g c) -> all_chars f s = all_chars g s.
Proof. intros H. induction s as [|c s IH]; simpl; [reflexivity | now rewrite H, IH]. Qed.


Lemma all_chars_get (f : ascii -> bool) (s : string) :
  all_chars f s = true -> forall i c, String.get i s = Some c -> f c = true.
Proof.
  induction s as [|c0 s IH]; simpl; intros H i c Hi; [discriminate |].
  apply andb_true_iff in H as [H0 H]. destruct i as [|i].
  - injection Hi as <-. exact H0.
  - now apply (IH H i).
Qed.

Lemma all_chars_has_char (f : ascii -> bool) (c : ascii) (s : string) :
  all_chars f s = true -> f c = false -> has_char c s = false.
Proof.
  induction s as [|c0 s IH]; simpl; intros H Hc; [reflexivity |].
  apply andb_true_iff in H as [H0 H]. rewrite (IH H Hc), orb_false_r.
  destruct (Ascii.eqb_spec c c0) as [-> | _]; [congruence | reflexivity].
Qed.

Lemma lang_star_class (rs : list (ascii * ascii)) (s : string) :
  lang (Star (Class rs)) s <-> all_chars (fun c => in_class c rs) s = true.
Proof.
  split.
  - intros H. remember (Star (Class rs)) as r eqn:Er.
    induction H as [| | | | | | | r0 s1 s2 H1 _ H2 IH2]; try discriminate.
    + reflexivity.
    + injection Er as ->. apply lang_class_inv in H1 as (c & -> & Hc).
      simpl. rewrite Hc. now apply IH2.
  - induction s as [|c s IH]; simpl; intros H; [constructor |].
    apply andb_true_iff in H as [Hc H].
    change (String c s) with (String c EmptyString ++ s).
    constructor; [now constructor | now apply IH].
Qed.

(** [[start][rest]*] is a segment. *)
Lemma lang_segment (a b : list (ascii * ascii)) (s : string) :
  lang (Cat (Class a) (Star (Class b))) s
  <-> Grammar.segment (fun c => in_class c a) (fun c => in_class c b) s = true.
Proof.
  split.
  - intros H. apply lang_cat_inv in H as (s1 & s2 & -> & H1 & H2).
    apply lang_class_inv in H1 as (c & -> & Hc). apply lang_star_class in H2.
    simpl. now rewrite Hc, H2.
  - destruct s as [|c s]; simpl; intros H; [discriminate |].
    apply andb_true_iff in H as [Hc H].
    change (String c s) with (String c EmptyString ++ s).
    constructor; [now constructor | now apply lang_star_class].
Qed.

Lemma segment_ext (f f' g g' : ascii -> bool) (s : string) :
  (forall c, f c = f' c) -> (forall c, g c = g' c) ->
  Grammar.segment f g s = Grammar.segment f' g' s.
Proof.
  intros Hf Hg. destruct s as [|c s]; simpl; [reflexivity |].
  now rewrite Hf, (all_chars_ext g g' s Hg).
Qed.

Ltac class_eq :=
  intros c; unfold in_class, existsb;
  rewrite ?in_range_single;
  unfold Grammar.scope_rest, Grammar.scope_start, Grammar.name_start,
    Grammar.name_rest, Grammar.one_of, Grammar.is_lower, Grammar.is_digit,
    has_char, in_range, span, fst, snd;
  rewrite ?orb_false_r, ?orb_assoc; reflexivity.

Lemma scope_start_class (c : ascii) :
  in_class c [span "a" "z"; span "0" "9"; single "-"; single "*"; single "~"]
  = Grammar.scope_start c.
Proof. revert c. class_eq. Qed.

Lemma scope_rest_class (c : ascii) :
  in_class c [span "a" "z"; span "0" "9"; single "-"; single "*"; single ".";
              single "_"; single "~"]
  = Grammar.scope_rest c.
Proof.
  revert c. intros c; unfold in_class, existsb; rewrite ?in_range_single.
  unfold Grammar.scope_rest, Grammar.scope_start, Grammar.one_of,
    Grammar.is_lower, Grammar.is_digit, has_char, in_range, span, fst, snd.
  rewrite ?orb_false_r.
  destruct (_ && _), (_ && _), (c =? "-")%char, (c =? "*")%char,
    (c =? ".")%char, (c =? "_")%char, (c =? "~")%char; reflexivity.
Qed.

Lemma name_start_class (c : ascii) :
  in_class c [span "a" "z"; span "0" "9"; single "-"; single "~"]
  = Grammar.name_start c.
Proof. revert c. class_eq. Qed.

Lemma name_rest_class (c : ascii) :
  in_class c [span "a" "z"; span "0" "9"; single "-"; single "."; single "_";
              single "~"]
  = Grammar.name_rest c.
Proof. revert c. class_eq. Qed.

Lemma name_segment_lang (s : string) :
  lang (Cat (Class [span "a" "z"; span "0" "9"; single "-"; single "~"])
          (Star (Class [span "a" "z"; span "0" "9"; single "-"; single ".";
                        single "_"; single "~"]))) s
  <-> Grammar.segment Grammar.name_start Grammar.name_rest s = true.
Proof.
  rewrite lang_segment.
  now rewrite (segment_ext _ Grammar.name_start _ Grammar.name_rest s
                 name_start_class name_rest_class).
Qed.

Lemma scope_segment_lang (s : string) :
  lang (Cat (Class [span "a" "z"; span "0" "9"; single "-"; single "*";
                    single "~"])
          (Star (Class [span "a" "z"; span "0" "9"; single "-"; single "*";
                        single "."; single "_"; single "~"]))) s
  <-> Grammar.segment Grammar.scope_start Grammar.scope_rest s = true.
Proof.
  rewrite lang_segment.
  now rewrite (segment_ext _ Grammar.scope_start _ Grammar.scope_rest s
                 scope_start_class scope_rest_class).
Qed.

(** The pattern of [NameStruct] denotes the package-name grammar. *)
Lemma name_pattern_lang (s : string) :
  lang name_pattern s <-> Grammar.package_name s.
Proof.
  unfold name_pattern, Opt, Grammar.package_name. split.
  - intros H. apply lang_cat_inv in H as (s1 & s2 & -> & H1 & H2).
    apply name_segment_lang in H2.
    apply lang_alt_inv in H1 as [H1 | H1].
    + apply lang_eps_inv in H1 as ->. now left.
    + right.
      apply lang_cat_inv in H1 as (a & w & -> & Ha & Hw).
      apply lang_chr_inv in Ha as ->.
      apply lang_cat_inv in Hw as (c1 & w' & -> & Hc1 & Hw').
      apply lang_cat_inv in Hw' as (rest & sl & -> & Hrest & Hsl).
      apply lang_chr_inv in Hsl as ->.
      exists (c1 ++ rest), s2. repeat split.
      * simpl. f_equal. now rewrite !append_assoc.
      * apply scope_segment_lang. now constructor.
      * exact H2.
  - intros [H | (scope & name & -> & Hscope & Hname)].
    + change s with (EmptyString ++ s). constructor.
      * apply lang_alt_l. constructor.
      * now apply name_segment_lang.
    + apply scope_segment_lang in Hscope.
      apply lang_cat_inv in Hscope as (c1 & rest & -> & Hc1 & Hrest).
      replace (String "@" ((c1 ++ rest) ++ String "/" name))
        with ((String "@" EmptyString ++ (c1 ++ (rest ++ String "/" EmptyString))) ++ name)
        by (simpl; f_equal; now rewrite !append_assoc).
      constructor; [| now apply name_segment_lang].
      apply lang_alt_r.
      repeat (constructor; try assumption).
Qed.

(* ================================================================== *)
(** ** Running structs *)

Lemma returns_ret {A : Type} (a : A) : returns (ret a) a.
Proof. intros st. reflexivity. Qed.

Lemma returns_not_throws {A : Type} (m : M A) (a : A) (e : string) :
  returns m a -> throws m e -> False.
Proof.
  intros Ha He. specialize (Ha (fun _ => 0)). specialize (He (fun _ => 0)).
  congruence.
Qed.

Lemma and_then_Pass_r (a : verdict) : and_then a Pass = a.
Proof. now destruct a. Qed.

Lemma and_then_Pass (a b : verdict) :
  and_then a b = Pass <-> a = Pass /\ b = Pass.
Proof. destruct a; simpl; intuition congruence. Qed.

(** A verdict is what a predicate answers, and only that. *)
Lemma answers_unique (m : M bool) (o o' : verdict) :
  answers m o -> answers m o' -> o = o'.
Proof.
  destruct o, o'; simpl; intros H H'; try reflexivity; exfalso;
    specialize (H (fun _ => 0)); specialize (H' (fun _ => 0)); congruence.
Qed.

Lemma answers_completion (m : M bool) (o : verdict) (st : store) :
  answers m o -> m st = (verdict_completion o, st).
Proof. destruct o; simpl; intros H; apply H. Qed.

Lemma bind_ext {A B : Type} (m : M A) (k k' : A -> M B) (st : store) :
  (forall a st', k a st' = k' a st') -> bind m k st = bind m k' st.
Proof.
  intros H. unfold bind. destruct (m st) as [[a|e] st']; [apply H | reflexivity].
Qed.

Lemma bind_ext_l {A B : Type} (m m' : M A) (k : A -> M B) (st : store) :
  (forall st', m st' = m' st') -> bind m k st = bind m' k st.
Proof. intros H. unfold bind. now rewrite H. Qed.

(** [run] unfolds to the validator, the entries loop and the refiner. *)
Lemma run_entries_each (p : list string)
  (l : list (string * value * Superstruct.Struct)) (st : store) :
  (fix each (l : list (string * value * Superstruct.Struct))
     : M (option Superstruct.Failure) :=
     match l with
     | [] => ret None
     | (k, x, s') :: rest =>
         r <- Superstruct.run s' x (p ++ [k])%list ;;
         match r with
         | Some f => ret (Some f)
         | None => each rest
         end
     end) l st = run_entries l p st.
Proof.
  revert st. induction l as [|[[k x] s'] rest IH]; intros st; [reflexivity |].
  simpl. unfold bind.
  destruct (Superstruct.run s' x (p ++ [k])%list st) as [[[f|]|e] st'];
    try reflexivity.
  apply IH.
Qed.

Lemma run_unfold (s : Superstruct.Struct) (v : value) (p : list string)
  (st : store) :
  Superstruct.run s v p st =
  (ok <- Superstruct.struct_validator s v ;;
   if ok then
     r <- run_entries (Superstruct.struct_entries s v) p ;;
     match r with
     | Some f => ret (Some f)
     | None =>
         n <- Superstruct.struct_refiner s v ;;
         match n with
         | Some name =>
             ret (Some (Superstruct.mkFailure v (Superstruct.struct_type s)
                          (Some name) p))
         | None => ret None
         end
     end
   else ret (Some (Superstruct.mkFailure v (Superstruct.struct_type s) None p)))
    st.
Proof.
  destruct s as [t entries validator refiner]. simpl.
  apply bind_ext. intros [|] st1; [| reflexivity].
  apply bind_ext_l. intros st2. apply run_entries_each.
Qed.

Lemma decides_ext (s : Superstruct.Struct) (check check' : value -> verdict) :
  decides s check -> (forall v, check v = check' v) -> decides s check'.
Proof. intros H E v p. rewrite <- E. apply H. Qed.

Lemma print_answers (v : value) :
  answers (_ <- Superstruct.print v ;; ret false) (reported v).
Proof.
  unfold reported, Superstruct.print.
  destruct (printable v); simpl; intros st; reflexivity.
Qed.

Lemma toFailure_answers (r : Superstruct.Result) (v : value) :
  answers (Superstruct.toFailure r v) (result_verdict r v).
Proof.
  destruct r; simpl; try (intros st; reflexivity).
  apply print_answers.
Qed.

(** A struct with no entries and no refiner ends as its validator does. *)
Lemma run_validator (t : string) (validator : value -> M bool)
  (v : value) (p : list string) (o : verdict) :
  answers (validator v) o ->
  outcome (Superstruct.run
             (Superstruct.mkStruct t (fun _ => []) validator (fun _ => ret None))
             v p) o.
Proof.
  intros H. destruct o; cbn [outcome answers] in *.
  - intros st. rewrite run_unfold. simpl. unfold bind. now rewrite H.
  - eexists. intros st. rewrite run_unfold. simpl. unfold bind. now rewrite H.
  - intros st. rewrite run_unfold. simpl. unfold bind. now rewrite H.
Qed.

Lemma decides_string :
  decides Superstruct.string (fun v => if isString v then Pass else reported v).
Proof.
  intros v p. apply run_validator.
  destruct (isString v).
  - intros st. reflexivity.
  - unfold reported, Superstruct.print, bind.
    destruct (printable v); intros st; reflexivity.
Qed.

Lemma decides_never : decides Superstruct.never reported.
Proof.
  intros v p. apply run_validator.
  unfold reported, Superstruct.toFailure, Superstruct.print, bind.
  destruct (printable v); intros st; reflexivity.
Qed.

(** A refined struct runs the struct, and on success the new refiner. *)
Lemma run_refine (s : Superstruct.Struct) (name : string)
  (refiner : value -> M Superstruct.Result) (v : value) (p : list string)
  (st : store) :
  Superstruct.run (Superstruct.refine s name refiner) v p st =
  (r <- Superstruct.run s v p ;;
   match r with
   | Some f => ret (Some f)
   | None =>
       result <- refiner v ;;
       ok <- Superstruct.toFailure result v ;;
       ret (if ok then None
            else Some (Superstruct.mkFailure v (Superstruct.struct_type s)
                         (Some name) p))
   end) st.
Proof.
  rewrite run_unfold. simpl. unfold bind. rewrite run_unfold. unfold bind.
  destruct (Superstruct.struct_validator s v st) as [[[|]|e] st0];
    try reflexivity.
  destruct (run_entries (Superstruct.struct_entries s v) p st0)
    as [[[f|]|e] st1]; try reflexivity.
  destruct (Superstruct.struct_refiner s v st1) as [[[n|]|e] st2];
    try reflexivity.
  unfold ret. cbv beta iota.
  destruct (refiner v st2) as [[result|e] st3]; try reflexivity.
  destruct (Superstruct.toFailure result v st3) as [[[|]|e] st4]; reflexivity.
Qed.

Lemma outcome_refine (s : Superstruct.Struct) (name : string)
  (refiner : value -> M Superstruct.Result) (v : value) (p : list string)
  (a : verdict) (result : Superstruct.Result) :
  outcome (Superstruct.run s v p) a ->
  (a = Pass -> returns (refiner v) result) ->
  outcome (Superstruct.run (Superstruct.refine s name refiner) v p)
    (and_then a (result_verdict result v)).
Proof.
  intros Ha Hr. destruct a; cbn [outcome and_then] in *.
  - specialize (Hr eq_refl).
    pose proof (toFailure_answers result v) as Ht.
    destruct (result_verdict result v); cbn [outcome answers] in *.
    + intros st. rewrite run_refine. unfold bind. now rewrite Ha, Hr, Ht.
    + eexists. intros st. rewrite run_refine. unfold bind.
      now rewrite Ha, Hr, Ht.
    + intros st. rewrite run_refine. unfold bind. now rewrite Ha, Hr, Ht.
  - destruct Ha as [f Ha]. exists f.
    intros st. rewrite run_refine. unfold bind. now rewrite Ha.
  - intros st. rewrite run_refine. unfold bind. now rewrite Ha.
Qed.

Lemma outcome_refine_stop (s : Superstruct.Struct) (name : string)
  (refiner : value -> M Superstruct.Result) (v : value) (p : list string)
  (a : verdict) :
  outcome (Superstruct.run s v p) a ->
  a <> Pass ->
  outcome (Superstruct.run (Superstruct.refine s name refiner) v p) a.
Proof.
  intros Ha Hn.
  apply outcome_refine with (name := name) (refiner := refiner)
    (result := Superstruct.Valid) in Ha; [| congruence].
  now destruct a.
Qed.

(** Refining a refined [string()] by a check of strings. *)
Lemma decides_refine_string (s : Superstruct.Struct) (ok g : value -> bool)
  (name : string) (refiner : value -> M Superstruct.Result) :
  decides s (refined ok) ->
  (forall x, exists result,
      returns (refiner (VString x)) result
      /\ result_verdict result (VString x)
         = if g (VString x) then Pass else Fail) ->
  decides (Superstruct.refine s name refiner)
    (refined (fun v => ok v && g v)).
Proof.
  intros Hs Hf v p. specialize (Hs v p).
  destruct (isString v) eqn:E.
  - destruct v as [| | b | n | x | l | props]; try discriminate.
    destruct (Hf x) as (result & Hr & Hv).
    apply outcome_refine with (name := name) (refiner := refiner)
      (result := result) in Hs; [| intros _; exact Hr].
    rewrite Hv in Hs.
    unfold refined in *. cbn [isString] in *.
    destruct (ok (VString x)), (g (VString x)); exact Hs.
  - unfold refined in *. rewrite E in *.
    apply outcome_refine_stop; [exact Hs |].
    unfold reported. destruct (printable v); discriminate.
Qed.

Lemma decides_size (s : Superstruct.Struct) (ok : value -> bool)
  (min : nat) (max : Superstruct.bound) :
  decides s (refined ok) ->
  decides (Superstruct.size s min max)
    (refined (fun v => ok v && size_check min max v)).
Proof.
  intros Hs. apply decides_refine_string; [exact Hs |].
  intros x. eexists. split; [apply returns_ret |].
  cbn [size_check].
  now destruct ((min <=? String.length x)
                && Superstruct.leb_bound (String.length x) max).
Qed.

(** A [RegExp] without the [g] and [y] flags has no state to speak of. *)
Lemma test_returns (regexp : RegExp) (x : string) :
  global regexp = false -> sticky regexp = false ->
  returns (Regex.test regexp x) (matches (body regexp) x).
Proof. intros Hg Hy st. unfold Regex.test. now rewrite Hg, Hy. Qed.

Lemma decides_pattern (s : Superstruct.Struct) (ok : value -> bool)
  (regexp : RegExp) :
  global regexp = false -> sticky regexp = false ->
  decides s (refined ok) ->
  decides (Superstruct.pattern s regexp)
    (refined (fun v => ok v && pattern_check regexp v)).
Proof.
  intros Hg Hy Hs. apply decides_refine_string; [exact Hs |].
  intros x.
  exists (if matches (body regexp) x then Superstruct.Valid
          else Superstruct.Message).
  split.
  - intros st. unfold bind. now rewrite (test_returns regexp x Hg Hy st).
  - cbn [pattern_check]. now destruct (matches (body regexp) x).
Qed.

Lemma decides_string_refined :
  decides Superstruct.string (refined (fun _ => true)).
Proof.
  apply decides_ext with (1 := decides_string).
  intros v. unfold refined. now destruct (isString v).
Qed.

Lemma run_optional (s : Superstruct.Struct) (v : value) (p : list string)
  (st : store) :
  isUndefined v = false ->
  Superstruct.run (Superstruct.optional s) v p st = Superstruct.run s v p st.
Proof.
  intros H. rewrite !run_unfold. simpl. now rewrite H.
Qed.

Lemma decides_optional (s : Superstruct.Struct) (check : value -> verdict) :
  decides s check ->
  Superstruct.struct_entries s VUndefined = [] ->
  decides (Superstruct.optional s) (optional_check check).
Proof.
  intros Hs He v p. unfold optional_check. destruct (isUndefined v) eqn:Hu.
  - destruct v; try discriminate.
    intros st. rewrite run_unfold. simpl. now rewrite He.
  - specialize (Hs v p).
    destruct (check v); cbn [outcome] in *.
    + intros st. rewrite run_optional by exact Hu. apply Hs.
    + destruct Hs as [f Hs]. exists f.
      intros st. rewrite run_optional by exact Hu. apply Hs.
    + intros st. rewrite run_optional by exact Hu. apply Hs.
Qed.

(** Two loops in a row end as the first, and if that passes as the
    second. *)
Lemma outcome_then {A : Type} (m1 m2 : M (option A)) (a b : verdict) :
  outcome m1 a -> outcome m2 b ->
  outcome (r <- m1 ;; match r with Some f => ret (Some f) | None => m2 end)
    (and_then a b).
Proof.
  intros Ha Hb. destruct a; cbn [outcome and_then] in *.
  - destruct b; cbn [outcome] in *.
    + intros st. unfold bind. rewrite Ha. apply Hb.
    + destruct Hb as [f Hb]. exists f. intros st. unfold bind. rewrite Ha.
      apply Hb.
    + intros st. unfold bind. rewrite Ha. apply Hb.
  - destruct Ha as [f Ha]. exists f. intros st. unfold bind. now rewrite Ha.
  - intros st. unfold bind. now rewrite Ha.
Qed.

Lemma run_entries_schema (schema : list (string * Superstruct.Struct))
  (checks : list (value -> verdict)) :
  Forall2 (fun ks check => decides (snd ks) check) schema checks ->
  forall v p,
    outcome (run_entries
               (map (fun ks => (fst ks, getProp v (fst ks), snd ks)) schema) p)
      (fields_check schema checks v).
Proof.
  induction 1 as [|[k s] check schema checks Hd _ IH]; intros v p.
  - apply returns_ret.
  - unfold fields_check. cbn [map combine fold_right fst snd run_entries].
    apply outcome_then; [apply Hd | apply IH].
Qed.

Lemma object_validator_answers (v : value) :
  answers (Superstruct.object_validator v)
    (if isObject v then Pass else reported v).
Proof.
  unfold Superstruct.object_validator, reported, Superstruct.print, bind.
  destruct (isObject v); [intros st; reflexivity |].
  destruct (printable v); intros st; reflexivity.
Qed.

(** A struct with no refiner ends as its validator and then its entries
    do. *)
Lemma outcome_run_entries (t : string)
  (entries : value -> list (string * value * Superstruct.Struct))
  (validator : value -> M bool) (v : value) (p : list string)
  (a b : verdict) :
  answers (validator v) a ->
  outcome (run_entries (entries v) p) b ->
  outcome (Superstruct.run
             (Superstruct.mkStruct t entries validator (fun _ => ret None)) v p)
    (and_then a b).
Proof.
  intros Ha Hb. destruct a; cbn [answers and_then] in *.
  - destruct b; cbn [outcome] in *.
    + intros st. rewrite run_unfold. simpl. unfold bind. now rewrite Ha, Hb.
    + destruct Hb as [f Hb]. exists f.
      intros st. rewrite run_unfold. simpl. unfold bind. now rewrite Ha, Hb.
    + intros st. rewrite run_unfold. simpl. unfold bind. now rewrite Ha, Hb.
  - eexists. intros st. rewrite run_unfold. simpl. unfold bind.
    now rewrite Ha.
  - intros st. rewrite run_unfold. simpl. unfold bind. now rewrite Ha.
Qed.

Lemma decides_type (schema : list (string * Superstruct.Struct))
  (checks : list (value -> verdict)) :
  Forall2 (fun ks check => decides (snd ks) check) schema checks ->
  decides (Superstruct.type schema)
    (fun v => if isObject v then fields_check schema checks v else reported v).
Proof.
  intros H v p. unfold Superstruct.type.
  pose proof (object_validator_answers v) as Hv.
  destruct (isObject v) eqn:Ho.
  - apply (@outcome_run_entries "type" _ _ v p Pass); [exact Hv |].
    rewrite Ho. apply run_entries_schema, H.
  - rewrite <- (and_then_Pass_r (reported v)).
    apply outcome_run_entries; [exact Hv |].
    rewrite Ho. apply returns_ret.
Qed.

Lemma run_entries_app (l1 l2 : list (string * value * Superstruct.Struct))
  (p : list string) (st : store) :
  run_entries (l1 ++ l2) p st =
  (r <- run_entries l1 p ;;
   match r with
   | Some f => ret (Some f)
   | None => run_entries l2 p
   end) st.
Proof.
  revert st. induction l1 as [|[[k x] s] l1 IH]; intros st; [reflexivity |].
  simpl. unfold bind in *.
  destruct (Superstruct.run s x (p ++ [k])%list st) as [[[f|]|e] st1];
    try reflexivity.
  apply IH.
Qed.

Lemma outcome_ext {A : Type} (m m' : M (option A)) (o : verdict) :
  (forall st, m st = m' st) -> outcome m' o -> outcome m o.
Proof.
  intros E H. destruct o; cbn [outcome] in *.
  - intros st. rewrite E. apply H.
  - destruct H as [f H]. exists f. intros st. rewrite E. apply H.
  - intros st. rewrite E. apply H.
Qed.

(** The unknown keys of a value are checked against [never()]: the loop
    stops at the first, which it reports with its value. *)
Lemma run_entries_never (v : value) (us : list string) (p : list string) :
  outcome (run_entries
             (map (fun k => (k, getProp v k, Superstruct.never)) us) p)
    (match us with [] => Pass | k :: _ => reported (getProp v k) end).
Proof.
  destruct us as [|k us].
  - apply returns_ret.
  - cbn [map run_entries].
    pose proof (decides_never (getProp v k) (p ++ [k])%list) as H.
    unfold reported in *.
    destruct (printable (getProp v k)); cbn [outcome] in *.
    + destruct H as [f H]. exists f. intros st. unfold bind. now rewrite H.
    + intros st. unfold bind. now rewrite H.
Qed.

Lemma unknowns_nil (schema : list (string * Superstruct.Struct))
  (ks : list string) :
  match Superstruct.unknowns schema [] ks with [] => true | _ => false end
  = forallb (Superstruct.is_known schema) ks.
Proof.
  induction ks as [|k ks IH]; simpl; [reflexivity |].
  rewrite orb_false_r. now destruct (Superstruct.is_known schema k).
Qed.

Lemma decides_object (schema : list (string * Superstruct.Struct))
  (checks : list (value -> verdict)) :
  Forall2 (fun ks check => decides (snd ks) check) schema checks ->
  decides (Superstruct.object schema)
    (fun v => if isObject v
              then and_then (fields_check schema checks v)
                     (unknown_check schema v)
              else reported v).
Proof.
  intros H v p. unfold Superstruct.object.
  pose proof (object_validator_answers v) as Hv.
  destruct (isObject v) eqn:Ho.
  - apply (@outcome_run_entries "object" _ _ v p Pass); [exact Hv |].
    rewrite Ho.
    eapply outcome_ext; [intros st; apply run_entries_app |].
    apply outcome_then; [apply run_entries_schema, H |].
    apply run_entries_never.
  - rewrite <- (and_then_Pass_r (reported v)).
    apply outcome_run_entries; [exact Hv |].
    rewrite Ho. apply returns_ret.
Qed.

Lemma decides_is (s : Superstruct.Struct) (check : value -> verdict)
  (v : value) :
  decides s check -> answers (Superstruct.is_ v s) (check v).
Proof.
  intros H. specialize (H v []).
  unfold Superstruct.is_, Superstruct.validate.
  destruct (check v); cbn [outcome answers] in *.
  - intros st. unfold bind. now rewrite H.
  - destruct H as [f H]. intros st. unfold bind. now rewrite H.
  - intros st. unfold bind. now rewrite H.
Qed.

(* ================================================================== *)
(** ** The structs of [types.ts] *)

Lemma printable_non_object (v : value) :
  isObject v = false -> printable v = true.
Proof. now destruct v. Qed.

Lemma printable_string (v : value) : isString v = true -> printable v = true.
Proof. now destruct v. Qed.

Lemma reported_not_Pass (v : value) : reported v <> Pass.
Proof. unfold reported. destruct (printable v); discriminate. Qed.

Lemma refined_Pass (ok : value -> bool) (v : value) :
  (ok v = true -> isString v = true) ->
  (refined ok v = Pass <-> ok v = true).
Proof.
  intros H. unfold refined, reported.
  destruct (isString v), (ok v), (printable v); intuition congruence.
Qed.

Lemma refined_Fail (ok : value -> bool) (v : value) :
  (ok v = true -> isString v = true) ->
  (refined ok v = Fail <-> ok v = false /\ printable v = true).
Proof.
  intros H. unfold refined, reported.
  pose proof (printable_string v) as Hp.
  destruct (isString v), (ok v), (printable v); intuition congruence.
Qed.

Lemma refined_Raise (ok : value -> bool) (v : value) :
  refined ok v = Raise <-> printable v = false.
Proof.
  unfold refined, reported.
  pose proof (printable_string v) as Hp.
  destruct (isString v), (ok v), (printable v); intuition congruence.
Qed.

Lemma version_ok_string (v : value) : version_ok v = true -> isString v = true.
Proof. now destruct v. Qed.

Lemma name_ok_string (v : value) : name_ok v = true -> isString v = true.
Proof. now destruct v. Qed.

Lemma nonempty_string_string (v : value) :
  nonempty_string v = true -> isString v = true.
Proof. now destruct v. Qed.

Lemma decides_VersionStruct : decides VersionStruct (refined version_ok).
Proof.
  eapply decides_ext.
  - unfold VersionStruct.
    apply decides_refine_string with (ok := fun _ => true) (g := version_ok);
      [exact decides_string_refined |].
    intros x. eexists. split; [apply returns_ret |].
    cbn [version_ok]. now destruct (Semver.valid x).
  - intros v. reflexivity.
Qed.

Lemma decides_NameStruct : decides NameStruct (refined name_ok).
Proof.
  eapply decides_ext.
  - unfold NameStruct. apply decides_size.
    apply decides_pattern; try reflexivity. exact decides_string_refined.
  - intros v. now destruct v.
Qed.

Lemma decides_nonempty_string :
  decides (Superstruct.size Superstruct.string 1 Superstruct.Infinity)
    (refined nonempty_string).
Proof.
  eapply decides_ext.
  - apply decides_size. exact decides_string_refined.
  - intros v. destruct v; try reflexivity.
    unfold refined. simpl. now rewrite andb_true_r.
Qed.

Lemma decides_repository :
  decides (Superstruct.object repository_schema) repository_check.
Proof.
  eapply decides_ext.
  - apply (@decides_object repository_schema
             [refined nonempty_string; refined nonempty_string]).
    repeat constructor; exact decides_nonempty_string.
  - intros r. unfold repository_check, fields_check. simpl.
    destruct (isObject r); [| reflexivity].
    now destruct (refined nonempty_string (getProp r "type")),
      (refined nonempty_string (getProp r "url")).
Qed.

Lemma decides_NpmSnapPackageJsonStruct :
  decides NpmSnapPackageJsonStruct metadata_check.
Proof.
  eapply decides_ext.
  - unfold NpmSnapPackageJsonStruct.
    apply (@decides_type _
             [refined version_ok; refined name_ok;
              optional_check (refined nonempty_string);
              optional_check repository_check]).
    repeat constructor; simpl.
    + exact decides_VersionStruct.
    + exact decides_NameStruct.
    + apply decides_optional; [exact decides_nonempty_string | reflexivity].
    + apply decides_optional; [exact decides_repository | reflexivity].
  - intros v. unfold metadata_check, fields_check. simpl.
    now rewrite and_then_Pass_r.
Qed.

(** The predicate answers as [metadata_check] says, whatever the store,
    and leaves the store alone. *)
Lemma isNpmSnapPackageJson_answers (v : value) :
  answers (isNpmSnapPackageJson v) (metadata_check v).
Proof. apply decides_is, decides_NpmSnapPackageJsonStruct. Qed.

Lemma accepts_iff (s : Superstruct.Struct) (check : value -> verdict)
  (v : value) :
  decides s check -> (accepts s v <-> check v = Pass).
Proof.
  intros H. pose proof (decides_is v H) as Hr. unfold accepts. split.
  - intros Ha. apply (@answers_unique _ (check v) Pass Hr Ha).
  - intros E. now rewrite E in Hr.
Qed.

Lemma rejects_iff (s : Superstruct.Struct) (check : value -> verdict)
  (v : value) :
  decides s check -> (rejects s v <-> check v = Fail).
Proof.
  intros H. pose proof (decides_is v H) as Hr. unfold rejects. split.
  - intros Ha. apply (@answers_unique _ (check v) Fail Hr Ha).
  - intros E. now rewrite E in Hr.
Qed.

Lemma throws_iff (s : Superstruct.Struct) (check : value -> verdict)
  (v : value) :
  decides s check ->
  (throws (Superstruct.is_ v s) cannot_convert <-> check v = Raise).
Proof.
  intros H. pose proof (decides_is v H) as Hr. split.
  - intros Ha. apply (@answers_unique _ (check v) Raise Hr Ha).
  - intros E. now rewrite E in Hr.
Qed.

Lemma accepts_VersionStruct (v : value) :
  accepts VersionStruct v <-> version_ok v = true.
Proof.
  rewrite (accepts_iff _ decides_VersionStruct).
  apply refined_Pass, version_ok_string.
Qed.

Lemma accepts_NameStruct (v : value) :
  accepts NameStruct v <-> name_ok v = true.
Proof.
  rewrite (accepts_iff _ decides_NameStruct).
  apply refined_Pass, name_ok_string.
Qed.

Lemma rejects_VersionStruct (v : value) :
  rejects VersionStruct v <-> version_ok v = false /\ printable v = true.
Proof.
  rewrite (rejects_iff _ decides_VersionStruct).
  apply refined_Fail, version_ok_string.
Qed.

Lemma rejects_NameStruct (v : value) :
  rejects NameStruct v <-> name_ok v = false /\ printable v = true.
Proof.
  rewrite (rejects_iff _ decides_NameStruct).
  apply refined_Fail, name_ok_string.
Qed.

Lemma optional_check_Pass (check : value -> verdict) (ok : value -> bool)
  (x : value) :
  (check x = Pass <-> ok x = true) ->
  (optional_check check x = Pass <-> isUndefined x || ok x = true).
Proof.
  intros H. unfold optional_check.
  destruct (isUndefined x); simpl; [tauto | exact H].
Qed.

Lemma unknown_check_Pass (schema : list (string * Superstruct.Struct))
  (v : value) :
  unknown_check schema v = Pass <-> only_known schema v = true.
Proof.
  unfold unknown_check, only_known. rewrite <- unknowns_nil.
  destruct (Superstruct.unknowns schema [] (keys v)) as [|k us].
  - tauto.
  - pose proof (reported_not_Pass (getProp v k)). intuition congruence.
Qed.

Lemma repository_check_Pass (r : value) :
  repository_check r = Pass <-> repository_ok r = true.
Proof.
  unfold repository_check, repository_ok.
  destruct (isObject r); simpl.
  - rewrite !and_then_Pass, !andb_true_iff, unknown_check_Pass.
    rewrite !(@refined_Pass _ _ (@nonempty_string_string _)). tauto.
  - pose proof (reported_not_Pass r). intuition congruence.
Qed.

Lemma metadata_check_Pass (v : value) :
  metadata_check v = Pass <-> metadata_ok v = true.
Proof.
  unfold metadata_check, metadata_ok.
  destruct (isObject v); simpl.
  - rewrite !and_then_Pass, !andb_true_iff.
    rewrite (@refined_Pass _ _ (@version_ok_string _)).
    rewrite (@refined_Pass _ _ (@name_ok_string _)).
    rewrite (@optional_check_Pass _ nonempty_string _
               (@refined_Pass _ _ (@nonempty_string_string _))).
    rewrite (@optional_check_Pass _ repository_ok _
               (repository_check_Pass _)).
    tauto.
  - pose proof (reported_not_Pass v). intuition congruence.
Qed.

(** The guard returns [true] exactly on what [metadata_ok] holds of. *)
Lemma isNpmSnapPackageJson_true (v : value) :
  returns (isNpmSnapPackageJson v) true <-> metadata_ok v = true.
Proof.
  rewrite <- metadata_check_Pass.
  pose proof (isNpmSnapPackageJson_answers v) as H. split.
  - intros Ht. apply (@answers_unique _ (metadata_check v) Pass H Ht).
  - intros E. now rewrite E in H.
Qed.

Lemma isNpmSnapPackageJson_false (v : value) :
  returns (isNpmSnapPackageJson v) false <-> metadata_check v = Fail.
Proof.
  pose proof (isNpmSnapPackageJson_answers v) as H. split.
  - intros Ht. apply (@answers_unique _ (metadata_check v) Fail H Ht).
  - intros E. now rewrite E in H.
Qed.

Lemma isNpmSnapPackageJson_throws (v : value) :
  throws (isNpmSnapPackageJson v) cannot_convert <-> metadata_check v = Raise.
Proof.
  pose proof (isNpmSnapPackageJson_answers v) as H. split.
  - intros Ht. apply (@answers_unique _ (metadata_check v) Raise H Ht).
  - intros E. now rewrite E in H.
Qed.

Lemma lang_FULL (s : string) :
  lang Semver.FULL s
  <-> exists s', (s = s' \/ s = String "v" s') /\ lang Semver.valid_semver s'.
Proof.
  unfold Semver.FULL, Opt. split.
  - intros H. apply lang_cat_inv in H as (s1 & s2 & -> & H1 & H2).
    exists s2. split; [| exact H2].
    apply lang_alt_inv in H1 as [H1 | H1].
    + apply lang_eps_inv in H1 as ->. now left.
    + apply lang_chr_inv in H1 as ->. now right.
  - intros (s' & [-> | ->] & H).
    + change s' with (EmptyString ++ s'). constructor; [| exact H].
      apply lang_alt_l. constructor.
    + change (String "v" s') with (String "v" EmptyString ++ s').
      constructor; [| exact H]. apply lang_alt_r. constructor.
Qed.

Lemma version_ok_iff (s : string) :
  version_ok (VString s) = true <-> semver_string s.
Proof.
  unfold version_ok, Semver.valid, semver_string, Semver.MAX_LENGTH.
  rewrite <- lang_FULL, <- matches_lang, <- Nat.leb_le.
  destruct (String.length s <=? 256), (matches Semver.FULL s), (Semver.safe s);
    intuition congruence.
Qed.

Lemma name_ok_iff (s : string) :
  name_ok (VString s) = true
  <-> (1 <= String.length s <= 214 /\ Grammar.package_name s).
Proof.
  unfold name_ok. rewrite !andb_true_iff, matches_lang, name_pattern_lang.
  rewrite !Nat.leb_le. tauto.
Qed.

Lemma isUndefined_false (x : value) : isUndefined x = false <-> present x.
Proof. unfold present. destruct x; simpl; split; congruence. Qed.

Lemma isUndefined_true (x : value) : isUndefined x = true -> x = VUndefined.
Proof. now destruct x. Qed.

Lemma optional_ok (x : value) (b : bool) :
  isUndefined x || b = true <-> (present x -> b = true).
Proof.
  rewrite orb_true_iff, <- isUndefined_false.
  destruct (isUndefined x), b; intuition congruence.
Qed.

Lemma only_known_repository (r : value) :
  only_known repository_schema r = true <-> repository_closed r.
Proof.
  unfold only_known, repository_closed. rewrite forallb_forall.
  split; intros H k Hk; specialize (H k Hk).
  - unfold Superstruct.is_known in H. simpl in H.
    rewrite orb_false_r, orb_true_iff, !String.eqb_eq in H. exact H.
  - unfold Superstruct.is_known. simpl.
    rewrite orb_false_r, orb_true_iff, !String.eqb_eq. exact H.
Qed.

Lemma repository_ok_iff (r : value) :
  repository_ok r = true <-> repository_shape r /\ repository_closed r.
Proof.
  unfold repository_ok, repository_shape.
  rewrite !andb_true_iff, only_known_repository. tauto.
Qed.

Lemma metadata_ok_iff (v : value) :
  metadata_ok v = true <-> package_metadata v.
Proof.
  unfold metadata_ok, package_metadata.
  rewrite !andb_true_iff, !optional_ok, repository_ok_iff.
  rewrite accepts_VersionStruct, accepts_NameStruct.
  tauto.
Qed.

Lemma unknowns_In (schema : list (string * Superstruct.Struct))
  (seen ks : list string) (k : string) :
  In k (Superstruct.unknowns schema seen ks) -> In k ks.
Proof.
  revert seen. induction ks as [|k0 ks IH]; intros seen; simpl; [tauto |].
  destruct (Superstruct.is_known schema k0 || existsb (String.eqb k0) seen).
  - intros H. right. now apply IH in H.
  - intros [-> | H]; [now left | right; now apply IH in H].
Qed.

Lemma and_then_not_Raise (a b : verdict) :
  a <> Raise -> b <> Raise -> and_then a b <> Raise.
Proof. now destruct a. Qed.

Lemma refined_not_Raise (ok : value -> bool) (x : value) :
  printable x = true -> refined ok x <> Raise.
Proof. intros Hx E. apply refined_Raise in E. congruence. Qed.

Lemma reported_printable (x : value) : printable x = true -> reported x = Fail.
Proof. unfold reported. now intros ->. Qed.

Lemma optional_not_Raise (check : value -> verdict) (x : value) :
  check x <> Raise -> optional_check check x <> Raise.
Proof. unfold optional_check. now destruct (isUndefined x). Qed.

(** With values that can be printed, the check of the unknown keys is
    that there is none. *)
Lemma unknown_check_printable (schema : list (string * Superstruct.Struct))
  (v : value) :
  (forall k, In k (keys v) -> printable (getProp v k) = true) ->
  unknown_check schema v = if only_known schema v then Pass else Fail.
Proof.
  intros Hk. unfold unknown_check, only_known. rewrite <- unknowns_nil.
  destruct (Superstruct.unknowns schema [] (keys v)) as [|k us] eqn:E;
    [reflexivity |].
  apply reported_printable, Hk.
  apply unknowns_In with (schema := schema) (seen := []).
  rewrite E. now left.
Qed.

Lemma repository_check_not_Raise (r : value) :
  printable (getProp r "type") = true ->
  printable (getProp r "url") = true ->
  (forall k, In k (keys r) -> printable (getProp r k) = true) ->
  repository_check r <> Raise.
Proof.
  intros Ht Hu Hk. unfold repository_check.
  destruct (isObject r) eqn:Ho.
  - repeat apply and_then_not_Raise; try now apply refined_not_Raise.
    rewrite (unknown_check_printable _ _ Hk).
    now destruct (only_known repository_schema r).
  - rewrite reported_printable by now apply printable_non_object.
    discriminate.
Qed.

(** Nothing throws when what a failure would print can be printed. *)
Lemma metadata_check_not_Raise (v : value) :
  printable_fields v = true -> metadata_check v <> Raise.
Proof.
  unfold printable_fields, metadata_check.
  rewrite !andb_true_iff. intros [[[Hv Hn] Hm] Hr].
  cbn [forallb] in Hr. rewrite !andb_true_iff, forallb_forall in Hr.
  destruct Hr as (Ht & Hu & Hk).
  destruct (isObject v) eqn:Ho.
  - repeat apply and_then_not_Raise; try now apply refined_not_Raise.
    + apply optional_not_Raise. now apply refined_not_Raise.
    + apply optional_not_Raise. now apply repository_check_not_Raise.
  - rewrite reported_printable by now apply printable_non_object.
    discriminate.
Qed.

(** Reading a key is blind to bindings of other keys. *)
Lemma lookup_other (k k' : string) (x : value)
  (before after : list (string * value)) :
  k <> k' ->
  lookup k (before ++ (k', x) :: after) = lookup k (before ++ after).
Proof.
  intros Hne. induction before as [|[k0 x0] before IH]; simpl.
  - apply String.eqb_neq in Hne. now rewrite Hne.
  - now rewrite IH.
Qed.

Lemma segment_all_chars (start rest : ascii -> bool) (s : string) :
  (forall c, start c = true -> rest c = true) ->
  Grammar.segment start rest s = true -> all_chars rest s = true.
Proof.
  intros H. destruct s as [|c s]; simpl; [discriminate |].
  intros E. apply andb_true_iff in E as [Hc Hs]. now rewrite (H c Hc), Hs.
Qed.

Lemma name_start_rest (c : ascii) :
  Grammar.name_start c = true -> Grammar.name_rest c = true.
Proof.
  unfold Grammar.name_start, Grammar.name_rest, Grammar.one_of, has_char.
  destruct (Grammar.is_lower c), (Grammar.is_digit c), (c =? "-")%char,
    (c =? "~")%char, (c =? ".")%char, (c =? "_")%char; simpl; congruence.
Qed.

Lemma scope_start_rest (c : ascii) :
  Grammar.scope_start c = true -> Grammar.scope_rest c = true.
Proof. unfold Grammar.scope_rest. intros ->. reflexivity. Qed.

Lemma get_append (s1 s2 : string) (i : nat) :
  String.get i (s1 ++ s2) =
  if i <? String.length s1 then String.get i s1
  else String.get (i - String.length s1) s2.
Proof.
  revert i. induction s1 as [|c s1 IH]; intros i; simpl.
  - now rewrite Nat.sub_0_r.
  - destruct i as [|i]; [reflexivity |]. apply IH.
Qed.

(** The assertion, through [assertStruct]: what [assert] throws is
    caught and thrown again under the prefix. *)
Lemma assertIsNpmSnapPackageJson_cases
  (describe : Superstruct.Failure -> string) (v : value) :
  (metadata_check v = Pass ->
   returns (assertIsNpmSnapPackageJson describe v) tt)
  /\ (metadata_check v = Fail ->
      exists f,
        throws (assertIsNpmSnapPackageJson describe v)
          ((dquote ++ NpmSnapFileNames.PackageJson ++ dquote ++ " is invalid")
           ++ ": "
           ++ Utils.getErrorMessage (Superstruct.StructError_message describe f)
           ++ "."))
  /\ (metadata_check v = Raise ->
      throws (assertIsNpmSnapPackageJson describe v)
        ((dquote ++ NpmSnapFileNames.PackageJson ++ dquote ++ " is invalid")
         ++ ": " ++ Utils.getErrorMessage cannot_convert ++ ".")).
Proof.
  pose proof (decides_NpmSnapPackageJsonStruct v []) as H.
  split; [| split]; intros E; rewrite E in H; cbn [outcome] in H.
  - intros st.
    unfold assertIsNpmSnapPackageJson, Utils.assertStruct, try_catch,
      Superstruct.assert, Superstruct.validate, bind.
    now rewrite H.
  - destruct H as [f H]. exists f. intros st.
    unfold assertIsNpmSnapPackageJson, Utils.assertStruct, try_catch,
      Superstruct.assert, Superstruct.validate, bind.
    now rewrite H.
  - intros st.
    unfold assertIsNpmSnapPackageJson, Utils.assertStruct, try_catch,
      Superstruct.assert, Superstruct.validate, bind.
    now rewrite H.
Qed.

Lemma rejected_when (v : value) :
  metadata_check v = Fail -> returns (isNpmSnapPackageJson v) false.
Proof. apply isNpmSnapPackageJson_false. Qed.

Lemma accepted_when (v : value) :
  metadata_ok v = true -> returns (isNpmSnapPackageJson v) true.
Proof. apply isNpmSnapPackageJson_true. Qed.

Lemma not_accepted_when (v : value) :
  metadata_ok v = false -> ~ returns (isNpmSnapPackageJson v) true.
Proof. intros E H. apply isNpmSnapPackageJson_true in H. congruence. Qed.

(* ================================================================== *)
(** ** Properties of the exported API *)

(** C1, as the specification has it, fails: ["v1.0.0"] is accepted, and
    it is not a valid semantic version of the semver 2.0 grammar. *)
Lemma VersionStruct_accepts_v_prefix :
  accepts VersionStruct (VString "v1.0.0")
  /\ ~ lang Semver.valid_semver "v1.0.0".
Proof.
  split.
  - apply accepts_VersionStruct. reflexivity.
  - intros H. apply matches_lang in H. discriminate H.
Qed.

(** C1, amended.  The version predicate ([is] on [VersionStruct]) accepts
    what [semver] takes for a version.  On a string it returns, without
    an exception; on a string that neither starts nor ends with white
    space it answers [true] exactly when the string has at most 256
    characters and is, after an optional leading ["v"], a valid semantic
    version of the semver 2.0 grammar whose major, minor and patch
    numbers do not exceed [2^53 - 1].  It accepts ["1.0.0"] and
    ["v1.0.0"]; it rejects ["1.0"] and the empty string; it accepts no
    value that is not a string, and rejects one that can be printed. *)
Theorem VersionStruct_accepts_semver :
  (forall s, exists b,
      returns (Superstruct.is_ (VString s) VersionStruct) b
      /\ (trimmed s = true -> (b = true <-> semver_string s)))
  /\ accepts VersionStruct (VString "1.0.0")
  /\ accepts VersionStruct (VString "v1.0.0")
  /\ rejects VersionStruct (VString "1.0")
  /\ rejects VersionStruct (VString EmptyString)
  /\ (forall v, accepts VersionStruct v -> isString v = true)
  /\ (forall v, isString v = false -> printable v = true ->
        rejects VersionStruct v).
Proof.
  split; [| split; [| split; [| split; [| split; [| split]]]]].
  - intros s. exists (version_ok (VString s)). split.
    + destruct (version_ok (VString s)) eqn:E.
      * now apply accepts_VersionStruct.
      * now apply rejects_VersionStruct.
    + intros _. apply version_ok_iff.
  - apply accepts_VersionStruct. reflexivity.
  - apply accepts_VersionStruct. reflexivity.
  - apply rejects_VersionStruct. now split.
  - apply rejects_VersionStruct. now split.
  - intros v H. now apply accepts_VersionStruct, version_ok_string in H.
  - intros v Hv Hp. apply rejects_VersionStruct. split; [| exact Hp].
    destruct v; try reflexivity. discriminate.
Qed.

Lemma VersionStruct_rejects_null : rejects VersionStruct VNull.
Proof.
  apply (proj2 (proj2 (proj2 (proj2 (proj2 (proj2
           VersionStruct_accepts_semver)))))); reflexivity.
Defined.

(** C2.  On a string [s] the package-name predicate ([is] on
    [NameStruct]) answers [true] exactly when [s] has between 1 and 214
    characters and is a package name of the grammar (optional scope
    segment [@<scope>/], then a name segment, lowercase only).  So it
    rejects the empty string, every string of 215 characters or more even
    if it is a package name of the grammar, and every string that is not
    one (an uppercase letter, a leading dot). *)
Theorem NameStruct_accepts_package_names :
  (forall s, exists b,
      returns (Superstruct.is_ (VString s) NameStruct) b
      /\ (b = true <->
          1 <= String.length s <= 214 /\ Grammar.package_name s))
  /\ rejects NameStruct (VString EmptyString)
  /\ (forall s, 215 <= String.length s -> rejects NameStruct (VString s))
  /\ (forall s, ~ Grammar.package_name s -> rejects NameStruct (VString s))
  /\ accepts NameStruct (VString "my-snap")
  /\ accepts NameStruct (VString "@scope/my-snap")
  /\ rejects NameStruct (VString "My-Snap")
  /\ rejects NameStruct (VString ".snap")
  /\ Grammar.package_name (repeat_char "a" 215)
  /\ rejects NameStruct (VString (repeat_char "a" 215)).
Proof.
  split; [| split; [| split; [| split; [| split; [| split; [| split;
    [| split; [| split]]]]]]]].
  - intros s. exists (name_ok (VString s)). split.
    + destruct (name_ok (VString s)) eqn:E.
      * now apply accepts_NameStruct.
      * now apply rejects_NameStruct.
    + apply name_ok_iff.
  - apply rejects_NameStruct. now split.
  - intros s Hs. apply rejects_NameStruct. split; [| reflexivity].
    unfold name_ok. apply andb_false_iff. right.
    apply andb_false_iff. right. apply Nat.leb_gt. lia.
  - intros s Hs. apply rejects_NameStruct. split; [| reflexivity].
    unfold name_ok. apply andb_false_iff. left.
    destruct (matches name_pattern s) eqn:E; [| reflexivity].
    elim Hs. now apply name_pattern_lang, matches_lang.
  - apply accepts_NameStruct. reflexivity.
  - apply accepts_NameStruct. reflexivity.
  - apply rejects_NameStruct. now split.
  - apply rejects_NameStruct. now split.
  - left. vm_compute. reflexivity.
  - apply rejects_NameStruct. split; vm_compute; reflexivity.
Qed.

Lemma NameStruct_rejects_long_name :
  rejects NameStruct (VString (repeat_char "z" 300)).
Proof.
  apply (proj1 (proj2 (proj2 NameStruct_accepts_package_names))).
  vm_compute. lia.
Defined.

(** C3, as the specification has it, fails: ["@a*/b"] is an accepted name
    whose [*] is the second character after [@], not the first. *)
Lemma star_beyond_scope_start :
  accepts NameStruct (VString "@a*/b")
  /\ String.get 2 "@a*/b" = Some "*"%char
  /\ String.get 1 "@a*/b" <> Some "*"%char.
Proof.
  split; [| split].
  - apply accepts_NameStruct. reflexivity.
  - reflexivity.
  - discriminate.
Qed.

(** C3, amended.  In an accepted name a [*] only occurs inside the scope
    segment, at its first character or at any later one: the name is
    [@<scope>/<name>], the [*] sits at one of the positions of [<scope>],
    which has no [/], and [<name>] has no [*]. *)
Theorem star_only_in_scope (s : string) (i : nat) :
  accepts NameStruct (VString s) ->
  String.get i s = Some "*"%char ->
  exists scope name,
    s = String "@" (scope ++ String "/" name)
    /\ 1 <= i <= String.length scope
    /\ has_char "/" scope = false
    /\ has_char "*" name = false.
Proof.
  intros Ha Hi.
  apply accepts_NameStruct, name_ok_iff in Ha as [_ Hg].
  destruct Hg as [Hn | (scope & name & -> & Hscope & Hname)].
  - apply (segment_all_chars _ _ _ name_start_rest) in Hn.
    pose proof (all_chars_get _ _ Hn _ Hi) as H. discriminate H.
  - apply (segment_all_chars _ _ _ name_start_rest) in Hname.
    apply (segment_all_chars _ _ _ scope_start_rest) in Hscope.
    exists scope, name. split; [reflexivity |].
    split; [| split].
    + destruct i as [|j]; [discriminate |]. simpl in Hi.
      rewrite get_append in Hi.
      destruct (Nat.ltb_spec j (String.length scope)) as [Hlt | Hge]; [lia |].
      exfalso.
      destruct (j - String.length scope) as [|m]; [discriminate |].
      simpl in Hi.
      pose proof (all_chars_get _ _ Hname _ Hi) as H. discriminate H.
    + now apply (all_chars_has_char _ _ _ Hscope).
    + now apply (all_chars_has_char _ _ _ Hname).
Qed.

Lemma star_only_in_scope_witness :
  exists scope name,
    "@a*/b" = String "@" (scope ++ String "/" name)
    /\ 1 <= 2 <= String.length scope
    /\ has_char "/" scope = false
    /\ has_char "*" name = false.
Proof.
  apply (@star_only_in_scope "@a*/b" 2).
  - intros st. vm_compute. reflexivity.
  - reflexivity.
Defined.

(** C4, as the specification has it, fails: metadata whose repository has
    the two fields and a [directory] besides is package metadata in the
    specification's words, and the predicate answers [false]. *)
Lemma repository_with_directory_rejected :
  metadata_as_claimed
    (VObject (minimal_metadata
              ++ [("repository",
                    VObject (git_repository
                             ++ [("directory", VString "packages/snap")]))]))
  /\ returns
       (isNpmSnapPackageJson
          (VObject (minimal_metadata
                    ++ [("repository",
                          VObject (git_repository
                                   ++ [("directory", VString "packages/snap")]))])))
       false.
Proof.
  split.
  - split; [reflexivity |]. split; [| split; [| split]].
    + apply accepts_VersionStruct. reflexivity.
    + apply accepts_NameStruct. reflexivity.
    + intros H. now elim H.
    + intros _. repeat split.
  - apply rejected_when. reflexivity.
Qed.

(** C4, amended.  [isNpmSnapPackageJson(v)] answers [true] exactly when
    [v] is an object whose [version] satisfies the version predicate,
    whose [name] satisfies the package-name predicate, whose [main], if
    present, is a non-empty string, and whose [repository], if present,
    is an object with non-empty strings [type] and [url] and no other
    key.  A key of [v] other than those four never makes the check fail.
    [{version: "1.2.3", name: "a"}] is valid, with or without [extra: 1];
    without [name], with an empty [main] or with a repository that lacks
    [url] it is not. *)
Theorem isNpmSnapPackageJson_package_metadata :
  (forall v, returns (isNpmSnapPackageJson v) true <-> package_metadata v)
  /\ (forall before after k x,
        k <> "version" -> k <> "name" -> k <> "main" -> k <> "repository" ->
        returns (isNpmSnapPackageJson (VObject (before ++ after))) true ->
        returns (isNpmSnapPackageJson (VObject (before ++ (k, x) :: after))) true)
  /\ returns (isNpmSnapPackageJson (VObject minimal_metadata)) true
  /\ returns
       (isNpmSnapPackageJson (VObject (minimal_metadata ++ [("extra", VNumber 1)])))
       true
  /\ returns (isNpmSnapPackageJson (VObject [("version", VString "1.2.3")])) false
  /\ returns
       (isNpmSnapPackageJson (VObject (minimal_metadata ++ [("main", VString EmptyString)])))
       false
  /\ returns
       (isNpmSnapPackageJson
          (VObject (minimal_metadata
                    ++ [("repository", VObject [("type", VString "git")])])))
       false
  /\ returns
       (isNpmSnapPackageJson
          (VObject (minimal_metadata ++ [("repository", VObject git_repository)])))
       true.
Proof.
  split; [| split; [| split; [| split; [| split; [| split; [| split]]]]]].
  - intros v. rewrite isNpmSnapPackageJson_true. apply metadata_ok_iff.
  - intros before after k x Hv Hn Hm Hr Ha.
    apply isNpmSnapPackageJson_true in Ha. apply accepted_when.
    rewrite <- Ha. unfold metadata_ok, getProp.
    now rewrite !lookup_other by congruence.
  - apply accepted_when. reflexivity.
  - apply accepted_when. reflexivity.
  - apply rejected_when. reflexivity.
  - apply rejected_when. reflexivity.
  - apply rejected_when. reflexivity.
  - apply accepted_when. reflexivity.
Qed.

Lemma extra_key_is_harmless :
  returns
    (isNpmSnapPackageJson
       (VObject ([("version", VString "1.2.3")]
                 ++ ("homepage", VNull) :: [("name", VString "a")])))
    true.
Proof.
  apply (proj1 (proj2 isNpmSnapPackageJson_package_metadata));
    try discriminate.
  intros st. vm_compute. reflexivity.
Defined.



(** C6.  The predicates are not total.  On the object
    [{version: {toString: 0}, name: "a"}], whose [version] cannot be
    converted to a string, [isNpmSnapPackageJson] throws the TypeError
    of that conversion, which superstruct attempts for the message of
    the failure; it does not return [false].  The version and the name
    predicates do the same on [{toString: 0}]. *)
Theorem guard_throws_on_unprintable_version :
  throws (isNpmSnapPackageJson metadata_with_unprintable_version)
    cannot_convert
  /\ ~ returns (isNpmSnapPackageJson metadata_with_unprintable_version) false
  /\ throws (Superstruct.is_ unprintable VersionStruct) cannot_convert
  /\ throws (Superstruct.is_ unprintable NameStruct) cannot_convert.
Proof.
  split; [| split; [| split]].
  - apply isNpmSnapPackageJson_throws. reflexivity.
  - intros H. apply isNpmSnapPackageJson_false in H. discriminate H.
  - apply (throws_iff _ decides_VersionStruct). reflexivity.
  - apply (throws_iff _ decides_NameStruct). reflexivity.
Qed.

(** The store is hidden state that a predicate could depend on: with the
    [g] flag on its pattern, the same check of the same name answers
    [true] and then [false]. *)
Example global_pattern_alternates :
  let check :=
    Superstruct.is_ (VString "my-snap")
      (Superstruct.pattern Superstruct.string global_name_regexp) in
  fst ((b1 <- check ;; b2 <- check ;; ret (b1, b2)) (fun _ => 0))
  = Normal (true, false).
Proof.
  vm_compute. reflexivity.
Qed.

(** C7.  The predicates are deterministic: what
    [isNpmSnapPackageJson] (and the version and name predicates) does on
    a value, return a boolean or throw, is the same from any two stores;
    a call leaves the store as it found it; and so a second call on the
    same value, made after the first, does what the first did. *)
Theorem predicates_deterministic (v : value) (st st' : store) :
  fst (isNpmSnapPackageJson v st) = fst (isNpmSnapPackageJson v st')
  /\ snd (isNpmSnapPackageJson v st) = st
  /\ isNpmSnapPackageJson v (snd (isNpmSnapPackageJson v st))
     = isNpmSnapPackageJson v st
  /\ (forall s,
        s = VersionStruct \/ s = NameStruct ->
        fst (Superstruct.is_ v s st) = fst (Superstruct.is_ v s st')
        /\ snd (Superstruct.is_ v s st) = st
        /\ Superstruct.is_ v s (snd (Superstruct.is_ v s st))
           = Superstruct.is_ v s st).
Proof.
  assert (H : forall (m : M bool) o,
             answers m o ->
             fst (m st) = fst (m st') /\ snd (m st) = st
             /\ m (snd (m st)) = m st).
  { intros m o Hm.
    rewrite !(@answers_completion m o st Hm), (@answers_completion m o st' Hm).
    cbn [fst snd]. rewrite (@answers_completion m o st Hm). repeat split. }
  destruct (H _ _ (isNpmSnapPackageJson_answers v)) as (H1 & H2 & H3).
  split; [exact H1 |]. split; [exact H2 |]. split; [exact H3 |].
  intros s [-> | ->].
  - apply (H _ _ (decides_is v decides_VersionStruct)).
  - apply (H _ _ (decides_is v decides_NameStruct)).
Qed.

Lemma version_predicate_deterministic :
  fst (Superstruct.is_ (VString "1.0.0") VersionStruct (fun _ => 0))
  = fst (Superstruct.is_ (VString "1.0.0") VersionStruct (fun _ => 5)).
Proof.
  apply (proj2 (proj2 (proj2
           (predicates_deterministic (VString "1.0.0") (fun _ => 0) (fun _ => 5))))).
  left. reflexivity.
Defined.

(** C8.  The exported constants: [NpmSnapFileNames.PackageJson] is
    ["package.json"], [NpmSnapFileNames.Manifest] is
    ["snap.manifest.json"], [SnapIdPrefixes.npm] is ["npm:"] and
    [SnapIdPrefixes.local] is ["local:"]. *)
Theorem enum_values :
  NpmSnapFileNames.PackageJson = "package.json"
  /\ NpmSnapFileNames.Manifest = "snap.manifest.json"
  /\ SnapIdPrefixes.npm = "npm:"
  /\ SnapIdPrefixes.local = "local:".
Proof. repeat split. Qed.

(** C9.  The [repository] object is closed, but an additional key does
    not always make the predicate return [false].  On metadata with a
    valid [version] and [name] and a [repository] with valid [type] and
    [url] and, besides, a key [x] bound to [{toString: 0}],
    [isNpmSnapPackageJson] throws the TypeError of converting that value
    to a string for the message of the failure. *)
Theorem unprintable_repository_key_throws :
  isObject metadata_with_unprintable_repository_key = true
  /\ accepts VersionStruct
       (getProp metadata_with_unprintable_repository_key "version")
  /\ accepts NameStruct
       (getProp metadata_with_unprintable_repository_key "name")
  /\ repository_shape
       (getProp metadata_with_unprintable_repository_key "repository")
  /\ In "x" (keys (getProp metadata_with_unprintable_repository_key
                     "repository"))
  /\ throws (isNpmSnapPackageJson metadata_with_unprintable_repository_key)
       cannot_convert
  /\ ~ returns (isNpmSnapPackageJson metadata_with_unprintable_repository_key)
         false.
Proof.
  split; [reflexivity |]. split; [| split; [| split; [| split; [| split]]]].
  - apply accepts_VersionStruct. reflexivity.
  - apply accepts_NameStruct. reflexivity.
  - repeat split.
  - vm_compute. tauto.
  - apply isNpmSnapPackageJson_throws. reflexivity.
  - intros H. apply isNpmSnapPackageJson_false in H. discriminate H.
Qed.

(** C10.  The assertion and the predicate do not agree everywhere.  On
    [{version: {toString: 0}, name: "a"}] the assertion throws, with the
    message of the TypeError under its prefix, and the predicate does
    not return [false]: it throws that TypeError itself. *)
Theorem assertion_throws_where_guard_throws
  (describe : Superstruct.Failure -> string) :
  throws (assertIsNpmSnapPackageJson describe metadata_with_unprintable_version)
    (invalid_package_json ++ ": " ++ cannot_convert ++ ".")
  /\ throws (isNpmSnapPackageJson metadata_with_unprintable_version)
       cannot_convert
  /\ ~ returns (isNpmSnapPackageJson metadata_with_unprintable_version) false.
Proof.
  split; [| split].
  - apply (assertIsNpmSnapPackageJson_cases describe
             metadata_with_unprintable_version).
    reflexivity.
  - apply isNpmSnapPackageJson_throws. reflexivity.
  - intros H. apply isNpmSnapPackageJson_false in H. discriminate H.
Qed.

(* ================================================================== *)
(** ** Further properties: what the guard promises, and objects *)

Lemma metadata_ok_type (v : value) :
  metadata_ok v = true -> NpmSnapPackageJson v.
Proof.
  unfold metadata_ok, NpmSnapPackageJson, repository_ok.
  rewrite !andb_true_iff, !orb_true_iff, !andb_true_iff.
  intros (Ho & Hv & Hn & Hm & Hr & _).
  split; [exact Ho |].
  split; [now apply version_ok_string |].
  split; [now apply name_ok_string |].
  split.
  - destruct Hm as [Hm | Hm];
      [left; now apply isUndefined_true | right; now apply nonempty_string_string].
  - destruct Hr as [Hr | (Hro & (Ht & Hu & _) & _)];
      [left; now apply isUndefined_true |].
    right. split; [exact Hro |].
    split; now apply nonempty_string_string.
Qed.

(** When the assertion returns, the check passed. *)
Lemma assertion_returns_only_when_ok
  (describe : Superstruct.Failure -> string) (v : value) :
  returns (assertIsNpmSnapPackageJson describe v) tt -> metadata_ok v = true.
Proof.
  intros H. apply metadata_check_Pass.
  destruct (assertIsNpmSnapPackageJson_cases describe v) as (_ & Hko & Hth).
  destruct (metadata_check v); [reflexivity | |]; exfalso.
  - destruct (Hko eq_refl) as (f & Hf). exact (returns_not_throws H Hf).
  - exact (returns_not_throws H (Hth eq_refl)).
Qed.

(** X1.  The type guard and the assertion are sound: when
    [isNpmSnapPackageJson(v)] answers [true], and when
    [assertIsNpmSnapPackageJson(v)] returns, [v] has the type
    [NpmSnapPackageJson] that their signatures announce. *)
Theorem guards_establish_the_type
  (describe : Superstruct.Failure -> string) (v : value) :
  (returns (isNpmSnapPackageJson v) true -> NpmSnapPackageJson v)
  /\ (returns (assertIsNpmSnapPackageJson describe v) tt ->
      NpmSnapPackageJson v).
Proof.
  split; intros H; apply metadata_ok_type.
  - now apply isNpmSnapPackageJson_true.
  - now apply assertion_returns_only_when_ok with (describe := describe).
Qed.

Lemma guards_establish_the_type_witness :
  NpmSnapPackageJson (VObject minimal_metadata).
Proof.
  apply (proj1 (guards_establish_the_type (fun _ => EmptyString)
                  (VObject minimal_metadata))).
  intros st. vm_compute. reflexivity.
Defined.

(** What the guard does only depends on what the four keys read. *)
Lemma metadata_check_ext (v v' : value) :
  isObject v = isObject v' ->
  getProp v "version" = getProp v' "version" ->
  getProp v "name" = getProp v' "name" ->
  getProp v "main" = getProp v' "main" ->
  getProp v "repository" = getProp v' "repository" ->
  metadata_check v = metadata_check v'.
Proof.
  unfold metadata_check. intros Ho -> -> -> ->. rewrite Ho.
  destruct (isObject v') eqn:E; [reflexivity |].
  rewrite !reported_printable; try reflexivity;
    apply printable_non_object; congruence.
Qed.

Lemma metadata_check_repository (v v' : value) :
  isObject v = true -> isObject v' = true ->
  getProp v "version" = getProp v' "version" ->
  getProp v "name" = getProp v' "name" ->
  getProp v "main" = getProp v' "main" ->
  optional_check repository_check (getProp v "repository")
  = optional_check repository_check (getProp v' "repository") ->
  metadata_check v = metadata_check v'.
Proof. unfold metadata_check. now intros -> -> -> -> -> ->. Qed.

(** The guard is a function of the verdict. *)
Lemma isNpmSnapPackageJson_ext (v v' : value) (st : store) :
  metadata_check v = metadata_check v' ->
  isNpmSnapPackageJson v st = isNpmSnapPackageJson v' st.
Proof.
  intros E.
  rewrite (@answers_completion _ _ st (isNpmSnapPackageJson_answers v)).
  rewrite (@answers_completion _ _ st (isNpmSnapPackageJson_answers v')).
  now rewrite E.
Qed.

Lemma lookup_permutation (k : string) (props props' : list (string * value)) :
  NoDup (map fst props) -> Permutation props props' ->
  lookup k props = lookup k props'.
Proof.
  intros Hnd Hp. induction Hp as [| [k0 x0] l l' Hp IH
                                  | [k1 x1] [k2 x2] l
                                  | l l' l'' Hp1 IH1 Hp2 IH2].
  - reflexivity.
  - simpl. inversion Hnd; subst. now rewrite IH.
  - simpl. destruct (String.eqb_spec k k2) as [-> | _];
      [| reflexivity].
    destruct (String.eqb_spec k2 k1) as [-> | _]; [| reflexivity].
    inversion Hnd as [| ? ? Hin _]; subst. elim Hin. now left.
  - rewrite IH1 by assumption. apply IH2.
    apply (Permutation_NoDup (Permutation_map fst Hp1) Hnd).
Qed.

(** X2.  The order of the keys of the object does not matter: two objects
    with the same bindings (no key twice) get the same answer from
    [isNpmSnapPackageJson]. *)
Theorem key_order_is_irrelevant (props props' : list (string * value))
  (st : store) :
  NoDup (map fst props) -> Permutation props props' ->
  isNpmSnapPackageJson (VObject props) st
  = isNpmSnapPackageJson (VObject props') st.
Proof.
  intros Hnd Hp. apply isNpmSnapPackageJson_ext.
  apply metadata_check_ext; simpl; try reflexivity;
    now apply lookup_permutation.
Qed.

Lemma key_order_is_irrelevant_witness :
  isNpmSnapPackageJson
    (VObject [("version", VString "1.2.3"); ("name", VString "a")]) (fun _ => 0)
  = isNpmSnapPackageJson
      (VObject [("name", VString "a"); ("version", VString "1.2.3")]) (fun _ => 0).
Proof.
  apply key_order_is_irrelevant.
  - simpl. repeat constructor; simpl; intuition discriminate.
  - apply perm_swap.
Defined.

(** [Object.keys] lists every key of the object, and only those. *)
Lemma in_insert_index (n m : N) (k k' : string) (l : list (N * string)) :
  In (m, k') (insert_index n k l) <-> (m, k') = (n, k) \/ In (m, k') l.
Proof.
  induction l as [|[m0 k0] l IH]; simpl.
  - intuition.
  - destruct (n <=? m0)%N; simpl; [intuition |].
    rewrite IH. intuition.
Qed.

Lemma in_index_keys (ks : list string) (n : N) (k : string) :
  In (n, k) (index_keys ks) <-> In k ks /\ array_index k = Some n.
Proof.
  induction ks as [|k0 ks IH]; simpl; [tauto |].
  destruct (array_index k0) as [n0|] eqn:E.
  - rewrite in_insert_index, IH. split.
    + intros [H | [H1 H2]]; [injection H as -> ->; auto | auto].
    + intros [[-> | H1] H2]; [left; congruence | auto].
  - rewrite IH. split.
    + intros [H1 H2]; auto.
    + intros [[-> | H1] H2]; [congruence | auto].
Qed.

Lemma in_keys (props : list (string * value)) (k : string) :
  In k (keys (VObject props)) <-> In k (map fst props).
Proof.
  unfold keys, other_keys. rewrite in_app_iff, in_map_iff, filter_In. split.
  - intros [([n k'] & E & H) | [H _]]; [| exact H].
    simpl in E. subst k'. now apply in_index_keys in H.
  - intros H. destruct (array_index k) as [n|] eqn:E.
    + left. exists (n, k). split; [reflexivity |]. now apply in_index_keys.
    + right. now split.
Qed.

Lemma forallb_same_elements {A : Type} (f : A -> bool) (l l' : list A) :
  (forall x, In x l <-> In x l') -> forallb f l = forallb f l'.
Proof.
  intros H. destruct (forallb f l') eqn:E.
  - rewrite forallb_forall in *. intros x Hx. apply E, H, Hx.
  - destruct (forallb f l) eqn:E'; [| reflexivity].
    rewrite <- E. symmetry. rewrite forallb_forall in *.
    intros x Hx. apply E', H, Hx.
Qed.

Lemma lookup_in (k : string) (props : list (string * value)) :
  In k (map fst props) -> In (lookup k props) (map snd props).
Proof.
  induction props as [|[k0 x0] props IH]; simpl; [tauto |].
  destruct (String.eqb_spec k k0) as [-> | Hne]; [now left |].
  intros [E | H]; [congruence | right; now apply IH].
Qed.

(** With values that can be printed, permuting the bindings of a
    repository changes nothing. *)
Lemma repository_check_permutation (r r' : list (string * value)) :
  NoDup (map fst r) -> Permutation r r' ->
  forallb printable (map snd r) = true ->
  repository_check (VObject r) = repository_check (VObject r').
Proof.
  intros Hnd Hp Hpr. unfold repository_check. cbn [isObject getProp].
  rewrite !(lookup_permutation _ Hnd Hp).
  assert (Hpr' : forallb printable (map snd r') = true).
  { rewrite forallb_forall in *. intros x Hx. apply Hpr.
    apply (Permutation_in x (Permutation_sym (Permutation_map snd Hp)) Hx). }
  rewrite !unknown_check_printable.
  - unfold only_known.
    rewrite (@forallb_same_elements _ _ (keys (VObject r)) (keys (VObject r')));
      [reflexivity |].
    intros k. rewrite !in_keys.
    split; apply Permutation_in;
      [| apply Permutation_sym]; apply (Permutation_map fst Hp).
  - intros k Hk. apply in_keys in Hk. rewrite forallb_forall in Hpr'.
    apply Hpr'. now apply lookup_in.
  - intros k Hk. apply in_keys in Hk. rewrite forallb_forall in Hpr.
    apply Hpr. now apply lookup_in.
Qed.

(** A key bound after [before] is read where [before] does not bind it. *)
Lemma lookup_middle (k k' : string) (x : value)
  (before after : list (string * value)) :
  lookup k (before ++ (k', x) :: after) =
  if existsb (String.eqb k) (map fst before) then lookup k before
  else if String.eqb k k' then x else lookup k after.
Proof.
  induction before as [|[k0 x0] before IH]; simpl; [reflexivity |].
  destruct (String.eqb k k0); [reflexivity | exact IH].
Qed.

(** X3.  Nor does the order of the keys of [repository], when the values
    it holds can be converted to strings: permuting its bindings (no key
    twice) does not change what [isNpmSnapPackageJson] does. *)
Theorem repository_key_order_is_irrelevant
  (before after r r' : list (string * value)) (st : store) :
  NoDup (map fst r) -> Permutation r r' ->
  forallb printable (map snd r) = true ->
  isNpmSnapPackageJson
    (VObject (before ++ ("repository", VObject r) :: after)) st
  = isNpmSnapPackageJson
      (VObject (before ++ ("repository", VObject r') :: after)) st.
Proof.
  intros Hnd Hp Hpr. apply isNpmSnapPackageJson_ext.
  apply metadata_check_repository; unfold getProp;
    try reflexivity;
    try (rewrite !lookup_other by discriminate; reflexivity).
  rewrite !lookup_middle.
  destruct (existsb (String.eqb "repository") (map fst before));
    [reflexivity |].
  rewrite String.eqb_refl. unfold optional_check. cbn [isUndefined].
  apply (repository_check_permutation Hnd Hp Hpr).
Qed.

Lemma repository_key_order_is_irrelevant_witness :
  isNpmSnapPackageJson
    (VObject (minimal_metadata
              ++ ("repository",
                   VObject [("type", VString "git"); ("url", VString "u")])
                 :: [])) (fun _ => 0)
  = isNpmSnapPackageJson
      (VObject (minimal_metadata
                ++ ("repository",
                     VObject [("url", VString "u"); ("type", VString "git")])
                   :: [])) (fun _ => 0).
Proof.
  apply repository_key_order_is_irrelevant.
  - simpl. repeat constructor; simpl; intuition discriminate.
  - apply perm_swap.
  - reflexivity.
Defined.

(** The checks run in order: the first that does not pass decides. *)
Lemma and_then_Fail_r (a b : verdict) :
  a <> Raise -> b = Fail -> and_then a b = Fail.
Proof. destruct a; simpl; congruence. Qed.

Lemma fails_at_version (v : value) :
  isObject v = true ->
  refined version_ok (getProp v "version") = Fail ->
  metadata_check v = Fail.
Proof. unfold metadata_check. now intros -> ->. Qed.

Lemma fails_at_name (v : value) :
  isObject v = true ->
  printable (getProp v "version") = true ->
  refined name_ok (getProp v "name") = Fail ->
  metadata_check v = Fail.
Proof.
  unfold metadata_check. intros -> Hv Hn.
  apply and_then_Fail_r; [now apply refined_not_Raise |].
  now rewrite Hn.
Qed.

Lemma fails_at_main (v : value) :
  isObject v = true ->
  printable (getProp v "version") = true ->
  printable (getProp v "name") = true ->
  optional_check (refined nonempty_string) (getProp v "main") = Fail ->
  metadata_check v = Fail.
Proof.
  unfold metadata_check. intros -> Hv Hn Hm.
  apply and_then_Fail_r; [now apply refined_not_Raise |].
  apply and_then_Fail_r; [now apply refined_not_Raise |].
  now rewrite Hm.
Qed.

Lemma fails_at_repository (v : value) :
  isObject v = true ->
  printable (getProp v "version") = true ->
  printable (getProp v "name") = true ->
  printable (getProp v "main") = true ->
  optional_check repository_check (getProp v "repository") = Fail ->
  metadata_check v = Fail.
Proof.
  unfold metadata_check. intros -> Hv Hn Hm Hr.
  apply and_then_Fail_r; [now apply refined_not_Raise |].
  apply and_then_Fail_r; [now apply refined_not_Raise |].
  apply and_then_Fail_r;
    [apply optional_not_Raise; now apply refined_not_Raise | exact Hr].
Qed.

Lemma metadata_ok_needs_main (v : value) :
  isUndefined (getProp v "main") || nonempty_string (getProp v "main") = false ->
  metadata_ok v = false.
Proof.
  unfold metadata_ok. intros ->.
  now destruct (isObject v), (version_ok (getProp v "version")),
    (name_ok (getProp v "name")).
Qed.

Lemma metadata_ok_needs_name (v : value) :
  name_ok (getProp v "name") = false -> metadata_ok v = false.
Proof.
  unfold metadata_ok. intros ->.
  now destruct (isObject v), (version_ok (getProp v "version")).
Qed.

Lemma metadata_ok_needs_repository (v : value) :
  isUndefined (getProp v "repository")
  || repository_ok (getProp v "repository") = false ->
  metadata_ok v = false.
Proof.
  unfold metadata_ok. intros ->.
  destruct (isObject v), (version_ok (getProp v "version")),
    (name_ok (getProp v "name")); try reflexivity.
  now rewrite andb_false_r.
Qed.

Lemma lookup_head (k : string) (x : value) (props : list (string * value)) :
  lookup k ((k, x) :: props) = x.
Proof. simpl. now rewrite String.eqb_refl. Qed.

Lemma lookup_remove_same (k : string) (props : list (string * value)) :
  lookup k (remove_key k props) = VUndefined.
Proof.
  induction props as [|[k0 x0] props IH]; simpl; [reflexivity |].
  destruct (String.eqb k k0) eqn:E; simpl; [exact IH |].
  now rewrite E.
Qed.

Lemma lookup_remove_other (k k' : string) (props : list (string * value)) :
  k' <> k -> lookup k' (remove_key k props) = lookup k' props.
Proof.
  intros Hne. induction props as [|[k0 x0] props IH]; simpl; [reflexivity |].
  destruct (String.eqb_spec k k0) as [<- | _]; simpl.
  - apply String.eqb_neq in Hne. now rewrite Hne.
  - now rewrite IH.
Qed.

Lemma lookup_undefined_binding (k k' : string) (props : list (string * value)) :
  lookup k' ((k, VUndefined) :: props) = lookup k' (remove_key k props).
Proof.
  destruct (String.eqb_spec k' k) as [-> | Hne].
  - now rewrite lookup_head, lookup_remove_same.
  - rewrite lookup_remove_other by assumption.
    simpl. apply String.eqb_neq in Hne. now rewrite Hne.
Qed.

(** X4.  Only [undefined] counts as absent.  A [main] that is there and
    is not a string (say [null]), and a [repository] that is there and is
    not an object (say [null], or the string shorthand of npm), keep
    [isNpmSnapPackageJson] from answering [true]; it answers [false]
    when the values it meets before, and the offending one, can be
    converted to strings.  A key bound to [undefined] gets what the
    object without the key gets. *)
Theorem optional_fields_are_absent_or_well_typed
  (props : list (string * value)) (x : value) :
  (isString x = false -> present x ->
   ~ returns (isNpmSnapPackageJson (VObject (("main", x) :: props))) true)
  /\ (isString x = false -> present x -> printable x = true ->
      printable (getProp (VObject props) "version") = true ->
      printable (getProp (VObject props) "name") = true ->
      returns (isNpmSnapPackageJson (VObject (("main", x) :: props))) false)
  /\ (isObject x = false -> present x ->
      ~ returns (isNpmSnapPackageJson (VObject (("repository", x) :: props)))
          true)
  /\ (isObject x = false -> present x ->
      printable (getProp (VObject props) "version") = true ->
      printable (getProp (VObject props) "name") = true ->
      printable (getProp (VObject props) "main") = true ->
      returns (isNpmSnapPackageJson (VObject (("repository", x) :: props)))
        false)
  /\ (forall k st,
        isNpmSnapPackageJson (VObject ((k, VUndefined) :: props)) st
        = isNpmSnapPackageJson (VObject (remove_key k props)) st).
Proof.
  split; [| split; [| split; [| split]]].
  - intros Hs Hp. apply isUndefined_false in Hp.
    apply not_accepted_when, metadata_ok_needs_main.
    unfold getProp. rewrite lookup_head, Hp.
    destruct x; try reflexivity; discriminate.
  - intros Hs Hp Hx Hv Hn. apply isUndefined_false in Hp.
    apply rejected_when, fails_at_main; try reflexivity;
      try assumption.
    unfold getProp. rewrite lookup_head.
    unfold optional_check, refined. rewrite Hp, Hs.
    now apply reported_printable.
  - intros Ho Hp. apply isUndefined_false in Hp.
    apply not_accepted_when, metadata_ok_needs_repository.
    unfold getProp. rewrite lookup_head, Hp.
    unfold repository_ok. now rewrite Ho.
  - intros Ho Hp Hv Hn Hm. apply isUndefined_false in Hp.
    apply rejected_when, fails_at_repository; try reflexivity;
      try assumption.
    unfold getProp. rewrite lookup_head.
    unfold optional_check, repository_check. rewrite Hp, Ho.
    now apply reported_printable, printable_non_object.
  - intros k st. apply isNpmSnapPackageJson_ext.
    apply metadata_check_ext; unfold getProp; try reflexivity;
      apply lookup_undefined_binding.
Qed.

Lemma null_main_is_rejected :
  returns
    (isNpmSnapPackageJson (VObject (("main", VNull) :: minimal_metadata)))
    false.
Proof.
  apply (proj1 (proj2
           (optional_fields_are_absent_or_well_typed minimal_metadata VNull)));
    try reflexivity.
  discriminate.
Defined.

(** X5.  Deleting a key other than [version] and [name] from an object
    that [isNpmSnapPackageJson] accepts leaves an object it accepts. *)
Theorem deleting_an_optional_key_keeps_validity
  (props : list (string * value)) (k : string) :
  k <> "version" -> k <> "name" ->
  returns (isNpmSnapPackageJson (VObject props)) true ->
  returns (isNpmSnapPackageJson (VObject (remove_key k props))) true.
Proof.
  intros Hv Hn Ha.
  apply isNpmSnapPackageJson_true in Ha as E.
  apply accepted_when. revert E. unfold metadata_ok, getProp.
  rewrite !(lookup_remove_other props (k := k) (k' := "version")) by congruence.
  rewrite !(lookup_remove_other props (k := k) (k' := "name")) by congruence.
  rewrite !andb_true_iff. intros (Ho & Hver & Hname & Hm & Hr & _).
  repeat split; try assumption.
  - destruct (String.eqb_spec "main" k) as [<- | Hne].
    + now rewrite lookup_remove_same.
    + now rewrite lookup_remove_other.
  - destruct (String.eqb_spec "repository" k) as [<- | Hne].
    + now rewrite lookup_remove_same.
    + now rewrite lookup_remove_other.
Qed.

Lemma deleting_an_optional_key_keeps_validity_witness :
  returns
    (isNpmSnapPackageJson
       (VObject (remove_key "main" (("main", VString "index.js") :: minimal_metadata))))
    true.
Proof.
  apply deleting_an_optional_key_keeps_validity; try discriminate.
  intros st. vm_compute. reflexivity.
Defined.

(** X6.  [version] and [name] are required: an object without one of
    them is never accepted, whatever else it holds.  Without [version]
    [isNpmSnapPackageJson] answers [false]; without [name] it answers
    [false] when the [version], which it checks first, can be converted
    to a string. *)
Theorem version_and_name_are_required (props : list (string * value)) :
  returns (isNpmSnapPackageJson (VObject (remove_key "version" props))) false
  /\ ~ returns (isNpmSnapPackageJson (VObject (remove_key "name" props))) true
  /\ (printable (getProp (VObject props) "version") = true ->
      returns (isNpmSnapPackageJson (VObject (remove_key "name" props)))
        false).
Proof.
  split; [| split].
  - apply rejected_when, fails_at_version; [reflexivity |].
    unfold getProp. now rewrite lookup_remove_same.
  - apply not_accepted_when, metadata_ok_needs_name.
    unfold getProp. now rewrite lookup_remove_same.
  - intros Hv. apply rejected_when, fails_at_name; [reflexivity | |].
    + unfold getProp in *. now rewrite lookup_remove_other by discriminate.
    + unfold getProp. now rewrite lookup_remove_same.
Qed.

Lemma string_of_uint_digits (d : Decimal.uint) :
  all_chars Grammar.is_digit (NilEmpty.string_of_uint d) = true.
Proof. induction d; simpl; try reflexivity; exact IHd. Qed.

(** An array only has numeric keys (and [length]). *)
Lemma index_lookup_not_a_number (k : string) (elems : list value) :
  all_chars Grammar.is_digit k = false ->
  forall i, index_lookup k i elems = VUndefined.
Proof.
  intros Hk. induction elems as [|x elems IH]; intros i; simpl;
    [reflexivity |].
  destruct (String.eqb_spec k (string_of_nat i)) as [-> | _]; [| apply IH].
  unfold string_of_nat in Hk. now rewrite string_of_uint_digits in Hk.
Qed.

(** X7.  An array is an object for [type] and [object]
    ([isObject] holds of it), but never valid: [isNpmSnapPackageJson]
    answers [false] on every array, and never accepts an object whose
    [repository] is an array; on such an object it answers [false] when
    the [version], [name] and [main] that it checks first can be
    converted to strings. *)
Theorem arrays_are_rejected (elems : list value) (props : list (string * value)) :
  isObject (VArray elems) = true
  /\ returns (isNpmSnapPackageJson (VArray elems)) false
  /\ ~ returns
         (isNpmSnapPackageJson (VObject (("repository", VArray elems) :: props)))
         true
  /\ (printable (getProp (VObject props) "version") = true ->
      printable (getProp (VObject props) "name") = true ->
      printable (getProp (VObject props) "main") = true ->
      returns
        (isNpmSnapPackageJson (VObject (("repository", VArray elems) :: props)))
        false).
Proof.
  split; [reflexivity |]. split; [| split].
  - apply rejected_when, fails_at_version; [reflexivity |].
    unfold getProp.
    replace (String.eqb "version" "length") with false by reflexivity.
    now rewrite index_lookup_not_a_number.
  - apply not_accepted_when, metadata_ok_needs_repository.
    unfold getProp at 1 2. rewrite lookup_head.
    unfold repository_ok, getProp.
    replace (String.eqb "type" "length") with false by reflexivity.
    now rewrite index_lookup_not_a_number.
  - intros Hv Hn Hm.
    apply rejected_when, fails_at_repository; try reflexivity;
      try assumption.
    unfold getProp at 1. rewrite lookup_head.
    unfold optional_check, repository_check, getProp.
    cbn [isUndefined isObject].
    replace (String.eqb "type" "length") with false by reflexivity.
    now rewrite index_lookup_not_a_number.
Qed.

(* ================================================================== *)
(** ** Further properties: package names *)

Lemma all_chars_append (f : ascii -> bool) (s1 s2 : string) :
  all_chars f (s1 ++ s2) = all_chars f s1 && all_chars f s2.
Proof.
  induction s1 as [|c s1 IH]; simpl; [reflexivity |].
  now rewrite IH, andb_assoc.
Qed.

Lemma all_chars_impl (f g : ascii -> bool) (s : string) :
  (forall c, f c = true -> g c = true) ->
  all_chars f s = true -> all_chars g s = true.
Proof.
  intros H. induction s as [|c s IH]; simpl; [reflexivity |].
  rewrite !andb_true_iff. intros [Hc Hs]. split; [now apply H | now apply IH].
Qed.

Lemma length_append (s1 s2 : string) :
  String.length (s1 ++ s2) = String.length s1 + String.length s2.
Proof.
  induction s1 as [|c s1 IH]; simpl; [reflexivity |].
  now rewrite IH.
Qed.

Lemma name_rest_charset (c : ascii) :
  Grammar.name_rest c = true -> name_charset c = true.
Proof.
  unfold Grammar.name_rest, name_charset, Grammar.one_of, has_char.
  destruct (Grammar.is_lower c), (Grammar.is_digit c), (c =? "-")%char,
    (c =? ".")%char, (c =? "_")%char, (c =? "~")%char; simpl;
    intros H; try reflexivity; discriminate H.
Qed.

Lemma scope_rest_charset (c : ascii) :
  Grammar.scope_rest c = true -> name_charset c = true.
Proof.
  unfold Grammar.scope_rest, Grammar.scope_start, name_charset,
    Grammar.one_of, has_char.
  destruct (Grammar.is_lower c), (Grammar.is_digit c), (c =? "-")%char,
    (c =? ".")%char, (c =? "_")%char, (c =? "~")%char, (c =? "*")%char;
    simpl; intros H; try reflexivity; discriminate H.
Qed.

(** What acceptance by [NameStruct] gives to work with. *)
Lemma accepted_name (s : string) :
  accepts NameStruct (VString s) ->
  1 <= String.length s <= 214
  /\ (all_chars Grammar.name_rest s = true
      \/ exists scope name,
           s = String "@" (scope ++ String "/" name)
           /\ all_chars Grammar.scope_rest scope = true
           /\ all_chars Grammar.name_rest name = true).
Proof.
  intros Ha.
  apply accepts_NameStruct, name_ok_iff in Ha as [Hl Hg].
  split; [exact Hl |].
  destruct Hg as [Hn | (scope & name & -> & Hscope & Hname)].
  - left. now apply (segment_all_chars _ _ _ name_start_rest).
  - right. exists scope, name. split; [reflexivity |].
    split;
      [ now apply (segment_all_chars _ _ _ scope_start_rest)
      | now apply (segment_all_chars _ _ _ name_start_rest) ].
Qed.

Lemma accepted_name_chars (s : string) :
  accepts NameStruct (VString s) -> all_chars name_charset s = true.
Proof.
  intros Ha.
  apply accepted_name in Ha as [_ [Hn | (scope & name & -> & Hs & Hn)]].
  - now apply (all_chars_impl _ _ _ name_rest_charset).
  - simpl. rewrite all_chars_append. simpl.
    rewrite (all_chars_impl _ _ _ scope_rest_charset Hs).
    now rewrite (all_chars_impl _ _ _ name_rest_charset Hn).
Qed.

(** X8.  An accepted name is made of lowercase letters, digits and the
    characters [-._~*@/] only: any other character (an uppercase letter,
    a space, a colon, anything outside ASCII) does not occur in it. *)
Theorem accepted_names_charset (s : string) :
  accepts NameStruct (VString s) ->
  all_chars name_charset s = true
  /\ (forall c, name_charset c = false -> has_char c s = false).
Proof.
  intros Ha. pose proof (accepted_name_chars Ha) as H.
  split; [exact H |].
  intros c Hc. now apply (all_chars_has_char _ _ _ H).
Qed.

Lemma accepted_names_charset_witness :
  all_chars name_charset "@scope/my-snap" = true
  /\ (forall c, name_charset c = false -> has_char c "@scope/my-snap" = false).
Proof.
  apply accepted_names_charset. intros st. vm_compute. reflexivity.
Defined.

(** X9.  In an accepted name [@] and [/] only occur as the frame of a
    scope: either the name has neither, or it is [@<scope>/<name>] and
    neither [<scope>] nor [<name>] has one.  So a name is scoped exactly
    when it starts with [@], and it splits at its only [/]. *)
Theorem accepted_names_scope_frame (s : string) :
  accepts NameStruct (VString s) ->
  (has_char "@" s = false /\ has_char "/" s = false)
  \/ exists scope name,
       s = String "@" (scope ++ String "/" name)
       /\ has_char "@" scope = false /\ has_char "/" scope = false
       /\ has_char "@" name = false /\ has_char "/" name = false.
Proof.
  intros Ha.
  apply accepted_name in Ha as [_ [Hn | (scope & name & -> & Hs & Hn)]].
  - left. split; now apply (all_chars_has_char _ _ _ Hn).
  - right. exists scope, name. split; [reflexivity |].
    repeat split;
      solve [ now apply (all_chars_has_char _ _ _ Hs)
            | now apply (all_chars_has_char _ _ _ Hn) ].
Qed.

Lemma accepted_names_scope_frame_witness :
  (has_char "@" "@scope/my-snap" = false /\ has_char "/" "@scope/my-snap" = false)
  \/ exists scope name,
       "@scope/my-snap" = String "@" (scope ++ String "/" name)
       /\ has_char "@" scope = false /\ has_char "/" scope = false
       /\ has_char "@" name = false /\ has_char "/" name = false.
Proof.
  apply accepted_names_scope_frame. intros st. vm_compute. reflexivity.
Defined.

Lemma prefix_has_char (p s : string) (c : ascii) :
  String.prefix p s = true -> has_char c p = true -> has_char c s = true.
Proof.
  revert s. induction p as [|a p IH]; intros s Hp Hc; [discriminate |].
  destruct s as [|b s]; cbn [String.prefix] in Hp; [discriminate |].
  destruct (ascii_dec a b) as [<- | _]; [| discriminate].
  cbn [has_char] in *. apply orb_true_iff in Hc as [Hc | Hc].
  - now rewrite Hc.
  - rewrite (IH s Hp Hc). apply orb_true_r.
Qed.

Lemma prefix_head (a : ascii) (p s : string) :
  String.prefix (String a p) s = true -> exists rest, s = String a rest.
Proof.
  destruct s as [|b s]; cbn [String.prefix]; [discriminate |].
  destruct (ascii_dec a b) as [<- | _]; [eauto | discriminate].
Qed.

(** X10.  A package name is never itself a prefixed snap id: no name
    that [NameStruct] accepts starts with [SnapIdPrefixes.npm] or with
    [SnapIdPrefixes.local] (it has no colon).  And the two prefixes
    exclude one another: no string starts with both. *)
Theorem names_and_id_prefixes (s : string) :
  (accepts NameStruct (VString s) ->
   String.prefix SnapIdPrefixes.npm s = false
   /\ String.prefix SnapIdPrefixes.local s = false)
  /\ (String.prefix SnapIdPrefixes.npm s = true ->
      String.prefix SnapIdPrefixes.local s = false).
Proof.
  split.
  - intros Ha. apply accepted_name_chars in Ha.
    pose proof (all_chars_has_char _ ":" _ Ha eq_refl) as Hc.
    split.
    + destruct (String.prefix SnapIdPrefixes.npm s) eqn:E; [| reflexivity].
      rewrite (prefix_has_char _ _ ":" E eq_refl) in Hc. discriminate.
    + destruct (String.prefix SnapIdPrefixes.local s) eqn:E; [| reflexivity].
      rewrite (prefix_has_char _ _ ":" E eq_refl) in Hc. discriminate.
  - unfold SnapIdPrefixes.npm, SnapIdPrefixes.local.
    intros H. apply prefix_head in H as (rest & ->).
    destruct (String.prefix "local:" (String "n" rest)) eqn:E; [| reflexivity].
    apply prefix_head in E as (rest' & E). discriminate E.
Qed.

Lemma names_and_id_prefixes_witness :
  String.prefix SnapIdPrefixes.npm "@scope/my-snap" = false
  /\ String.prefix SnapIdPrefixes.local "@scope/my-snap" = false.
Proof.
  apply (proj1 (names_and_id_prefixes "@scope/my-snap")).
  intros st. vm_compute. reflexivity.
Defined.

(** X11.  Accepted names grow at the end: appending a lowercase letter,
    a digit or one of [-._~] to an accepted name of fewer than 214
    characters gives an accepted name. *)
Theorem accepted_names_extend (s : string) (c : ascii) :
  accepts NameStruct (VString s) ->
  Grammar.name_rest c = true ->
  String.length s < 214 ->
  accepts NameStruct (VString (s ++ String c EmptyString)).
Proof.
  intros Ha Hc Hl.
  apply accepts_NameStruct, name_ok_iff in Ha as [Hlen Hg].
  apply accepts_NameStruct, name_ok_iff.
  split; [rewrite length_append; simpl; lia |].
  assert (Hseg : forall n,
             Grammar.segment Grammar.name_start Grammar.name_rest n = true ->
             Grammar.segment Grammar.name_start Grammar.name_rest
               (n ++ String c EmptyString) = true).
  { intros [|a tl]; simpl; [discriminate |].
    rewrite !andb_true_iff, all_chars_append. simpl.
    intros [Ha Htl]. now rewrite Ha, Htl, Hc. }
  destruct Hg as [Hn | (scope & name & -> & Hscope & Hname)].
  - left. now apply Hseg.
  - right. exists scope, (name ++ String c EmptyString).
    split; [simpl; now rewrite append_assoc |].
    split; [exact Hscope | now apply Hseg].
Qed.

Lemma accepted_names_extend_witness :
  accepts NameStruct (VString ("my-snap" ++ String "2" EmptyString)).
Proof.
  apply accepted_names_extend.
  - intros st. vm_compute. reflexivity.
  - reflexivity.
  - simpl. lia.
Defined.

Lemma length_repeat_char (c : ascii) (n : nat) :
  String.length (repeat_char c n) = n.
Proof. induction n as [|n IH]; simpl; [reflexivity | now rewrite IH]. Qed.

Lemma all_chars_repeat_char (f : ascii -> bool) (c : ascii) (n : nat) :
  f c = true -> all_chars f (repeat_char c n) = true.
Proof.
  intros Hc. induction n as [|n IH]; simpl; [reflexivity | now rewrite Hc, IH].
Qed.

(** X12.  Both bounds of the length are reached: for a character [c] a
    name can start with, the name made of [n] times [c] is accepted
    exactly when [n] is between 1 and 214. *)
Theorem name_length_bounds_are_tight (c : ascii) (n : nat) :
  Grammar.name_start c = true ->
  (accepts NameStruct (VString (repeat_char c n)) <-> 1 <= n <= 214).
Proof.
  intros Hc.
  rewrite accepts_NameStruct, name_ok_iff, length_repeat_char.
  split; [tauto |]. intros Hn. split; [exact Hn |].
  left. destruct n as [|n]; [lia |]. simpl.
  now rewrite Hc, (all_chars_repeat_char _ _ _ (name_start_rest _ Hc)).
Qed.

Lemma name_length_bounds_are_tight_witness :
  accepts NameStruct (VString (repeat_char "a" 214)) <-> 1 <= 214 <= 214.
Proof.
  apply name_length_bounds_are_tight. reflexivity.
Defined.

(* ================================================================== *)
(** ** Further properties: what the assertion reports *)

(** A value that can be printed runs through [string()] without
    throwing. *)
Lemma run_string (x : value) (p : list string) :
  printable x = true ->
  returns (Superstruct.run Superstruct.string x p)
    (if isString x then None
     else Some (Superstruct.mkFailure x "string" None p)).
Proof.
  intros Hx st. rewrite run_unfold.
  cbn [Superstruct.string Superstruct.define Superstruct.struct_validator
       Superstruct.struct_entries Superstruct.struct_refiner
       Superstruct.struct_type run_entries].
  unfold bind, Superstruct.print. rewrite Hx.
  now destruct (isString x).
Qed.

Lemma run_VersionStruct_failure (x : value) (p : list string) :
  version_ok x = false -> printable x = true ->
  returns (Superstruct.run VersionStruct x p)
    (Some (Superstruct.mkFailure x "string"
             (if isString x then Some "Version" else None) p)).
Proof.
  intros E Hx st. unfold VersionStruct. rewrite run_refine.
  unfold bind. rewrite (@run_string _ p Hx).
  destruct x; try reflexivity.
  simpl in E. cbn [isString]. unfold ret.
  destruct (Semver.valid s); [discriminate | reflexivity].
Qed.

Lemma run_NameStruct_failure (x : value) (p : list string) :
  name_ok x = false -> printable x = true ->
  returns (Superstruct.run NameStruct x p)
    (Some (Superstruct.mkFailure x "string"
             (match x with
              | VString s =>
                  Some (if matches name_pattern s then "size" else "pattern")
              | _ => None
              end) p)).
Proof.
  intros E Hx st. unfold NameStruct, Superstruct.size, Superstruct.pattern.
  rewrite run_refine. unfold bind at 1. rewrite run_refine.
  unfold bind at 1. rewrite (@run_string _ p Hx).
  destruct x; try reflexivity.
  unfold name_ok in E. cbn [isString]. unfold bind, ret, Regex.test.
  cbn [global sticky body name_regexp orb].
  destruct (matches name_pattern s); [| reflexivity].
  cbn [andb] in E. cbn [Superstruct.leb_bound Superstruct.sized].
  now rewrite E.
Qed.

(** The assertion throws the message of the first failure. *)
Lemma assert_reports (describe : Superstruct.Failure -> string) (v : value)
  (f : Superstruct.Failure) :
  returns (Superstruct.validate v NpmSnapPackageJsonStruct) (Some f) ->
  throws (assertIsNpmSnapPackageJson describe v) (assertion_message describe f).
Proof.
  intros Hf st.
  unfold assertIsNpmSnapPackageJson, Utils.assertStruct, try_catch,
    Superstruct.assert, bind.
  now rewrite Hf.
Qed.

Lemma validate_entries (v : value) (st : store) :
  isObject v = true ->
  Superstruct.validate v NpmSnapPackageJsonStruct st
  = (r <- Superstruct.run VersionStruct (getProp v "version") ["version"] ;;
     match r with
     | Some f => ret (Some f)
     | None =>
         r' <- run_entries
                 (map (fun ks => (fst ks, getProp v (fst ks), snd ks))
                    [ ("name", NameStruct);
                      ("main",
                        Superstruct.optional
                          (Superstruct.size Superstruct.string 1
                             Superstruct.Infinity));
                      ("repository",
                        Superstruct.optional
                          (Superstruct.object repository_schema)) ]) [] ;;
         match r' with
         | Some f => ret (Some f)
         | None => ret None
         end
     end) st.
Proof.
  intros Ho. unfold Superstruct.validate, NpmSnapPackageJsonStruct.
  rewrite run_unfold.
  cbn [Superstruct.type Superstruct.struct_validator
       Superstruct.struct_entries Superstruct.struct_refiner
       Superstruct.struct_type].
  unfold Superstruct.object_validator.
  rewrite Ho. cbn [map fst snd run_entries app].
  unfold bind. cbn [Superstruct.toFailure ret].
  destruct (Superstruct.run VersionStruct (getProp v "version") ["version"] st)
    as [[[f|]|e] st1]; reflexivity.
Qed.

(** X13.  On a value that is not an object the assertion reports the
    failure of the whole value, of type [type] and with an empty path:
    the message is the prefix, the description of that failure (without
    a final period of its own) and a period, with no [At path]. *)
Theorem assertion_reports_non_objects
  (describe : Superstruct.Failure -> string) (v : value) :
  isObject v = false ->
  throws (assertIsNpmSnapPackageJson describe v)
    (invalid_package_json ++ ": "
     ++ Utils.getErrorMessage
          (describe (Superstruct.mkFailure v "type" None []))
     ++ ".").
Proof.
  intros Ho.
  apply assert_reports with (f := Superstruct.mkFailure v "type" None []).
  intros st. unfold Superstruct.validate, NpmSnapPackageJsonStruct.
  rewrite run_unfold.
  cbn [Superstruct.type Superstruct.struct_validator Superstruct.struct_type].
  unfold Superstruct.object_validator, Superstruct.print, bind.
  now rewrite Ho, (printable_non_object _ Ho).
Qed.

Lemma assertion_reports_non_objects_witness :
  throws (assertIsNpmSnapPackageJson (fun _ => "Expected an object.") VNull)
    (invalid_package_json ++ ": "
     ++ Utils.getErrorMessage "Expected an object." ++ ".").
Proof.
  apply (@assertion_reports_non_objects (fun _ => "Expected an object.") VNull).
  reflexivity.
Defined.

(** X14.  The fields are checked in the order of the schema, and the
    assertion reports the first failure only: when [version] does not
    pass, the message is about [version] (path [version], refinement
    [Version] if it is a string, none if it is not), whatever the other
    fields are. *)
Theorem assertion_reports_version_first
  (describe : Superstruct.Failure -> string) (v : value) :
  isObject v = true ->
  rejects VersionStruct (getProp v "version") ->
  throws (assertIsNpmSnapPackageJson describe v)
    (invalid_package_json ++ ": "
     ++ Utils.getErrorMessage
          ("At path: version -- "
           ++ describe (version_failure (getProp v "version")))
     ++ ".").
Proof.
  intros Ho Hr. apply rejects_VersionStruct in Hr as [Hr Hx].
  apply assert_reports with (f := version_failure (getProp v "version")).
  intros st. rewrite (@validate_entries v st Ho). unfold bind.
  now rewrite (@run_VersionStruct_failure _ ["version"] Hr Hx).
Qed.

Lemma assertion_reports_version_first_witness :
  throws
    (assertIsNpmSnapPackageJson (fun _ => "Expected a string")
       (VObject [("name", VString "Not A Name")]))
    (invalid_package_json ++ ": "
     ++ Utils.getErrorMessage
          ("At path: version -- " ++ "Expected a string")
     ++ ".").
Proof.
  apply (@assertion_reports_version_first (fun _ => "Expected a string")
           (VObject [("name", VString "Not A Name")])).
  - reflexivity.
  - intros st. vm_compute. reflexivity.
Defined.

(** X15.  When [version] passes and [name] does not, the message is about
    [name]; for a string the refinement reported is [pattern] whenever
    the pattern does not match (also for the empty string and for a name
    that is too long as well), and [size] only for a name that matches
    the pattern and is too long. *)
Theorem assertion_reports_name_pattern_before_size
  (describe : Superstruct.Failure -> string) (v : value) :
  isObject v = true ->
  accepts VersionStruct (getProp v "version") ->
  rejects NameStruct (getProp v "name") ->
  throws (assertIsNpmSnapPackageJson describe v)
    (invalid_package_json ++ ": "
     ++ Utils.getErrorMessage
          ("At path: name -- " ++ describe (name_failure (getProp v "name")))
     ++ ".").
Proof.
  intros Ho Ha Hr.
  apply (accepts_iff _ decides_VersionStruct) in Ha.
  apply rejects_NameStruct in Hr as [Hr Hx].
  apply assert_reports with (f := name_failure (getProp v "name")).
  intros st. rewrite (@validate_entries v st Ho). unfold bind.
  pose proof (decides_VersionStruct (getProp v "version") ["version"])
    as Hrun.
  rewrite Ha in Hrun. cbn [outcome] in Hrun. rewrite Hrun.
  cbn [map fst snd run_entries app]. unfold bind.
  now rewrite (@run_NameStruct_failure _ ["name"] Hr Hx).
Qed.

Lemma assertion_reports_name_pattern_before_size_witness :
  throws
    (assertIsNpmSnapPackageJson
       (fun f => match Superstruct.refinement f with
                 | Some r => r
                 | None => "type"
                 end)
       (VObject [("version", VString "1.2.3"); ("name", VString EmptyString)]))
    (invalid_package_json ++ ": "
     ++ Utils.getErrorMessage ("At path: name -- " ++ "pattern") ++ ".").
Proof.
  apply (@assertion_reports_name_pattern_before_size
           (fun f => match Superstruct.refinement f with
                     | Some r => r
                     | None => "type"
                     end)
           (VObject [("version", VString "1.2.3");
                     ("name", VString EmptyString)])).
  - reflexivity.
  - intros st. vm_compute. reflexivity.
  - intros st. vm_compute. reflexivity.
Defined.

(* ================================================================== *)
(** ** Further properties: handler types *)

(** X16.  [SNAP_EXPORT_NAMES] holds exactly the strings of the members of
    [HandlerType], each once, and a string names one member only. *)
Theorem export_names_are_the_handler_strings :
  (forall name,
      In name SNAP_EXPORT_NAMES <-> exists member, In (member, name) HandlerType)
  /\ NoDup SNAP_EXPORT_NAMES
  /\ (forall member member' name,
        In (member, name) HandlerType -> In (member', name) HandlerType ->
        member = member').
Proof.
  split; [| split].
  - intros name. unfold SNAP_EXPORT_NAMES, Object_values.
    rewrite in_map_iff. split.
    + intros ([member name'] & E & Hin). simpl in E. subst. now exists member.
    + intros (member & Hin). now exists (member, name).
  - unfold SNAP_EXPORT_NAMES, Object_values, HandlerType. simpl.
    repeat constructor; simpl; intuition discriminate.
  - intros member member' name H H'. unfold HandlerType in *. simpl in *.
    repeat match goal with
           | H : _ \/ _ |- _ => destruct H
           | H : False |- _ => destruct H
           | H : (_, _) = (_, _) |- _ => inversion H; clear H; subst
           end; try reflexivity; discriminate.
Qed.

(* ================================================================== *)
(** ** Further properties: the report of an unknown repository key *)

Lemma unknowns_first (schema : list (string * Superstruct.Struct))
  (before after : list string) (k : string) :
  forallb (Superstruct.is_known schema) before = true ->
  Superstruct.is_known schema k = false ->
  Superstruct.unknowns schema [] (before ++ k :: after)
  = k :: Superstruct.unknowns schema [k] after.
Proof.
  intros Hb Hk. induction before as [|k0 before IH]; simpl in *.
  - now rewrite Hk.
  - apply andb_true_iff in Hb as [H0 Hb]. rewrite H0. simpl. now apply IH.
Qed.

Lemma run_never (x : value) (p : list string) :
  printable x = true ->
  returns (Superstruct.run Superstruct.never x p)
    (Some (Superstruct.mkFailure x "never" None p)).
Proof.
  intros Hx st. rewrite run_unfold.
  cbn [Superstruct.never Superstruct.define Superstruct.struct_validator
       Superstruct.struct_type].
  unfold bind, Superstruct.toFailure, Superstruct.print, bind.
  now rewrite Hx.
Qed.

Lemma run_repository_unknown (p : list string) (r : value)
  (before after : list string) (k : string) :
  repository_shape r ->
  keys r = (before ++ k :: after)%list ->
  forallb (Superstruct.is_known repository_schema) before = true ->
  Superstruct.is_known repository_schema k = false ->
  printable (getProp r k) = true ->
  returns
    (Superstruct.run
       (Superstruct.optional (Superstruct.object repository_schema)) r p)
    (Some (Superstruct.mkFailure (getProp r k) "never" None (p ++ [k])%list)).
Proof.
  intros (Ho & Ht & Hu) Hkeys Hb Hk Hx st.
  rewrite run_optional by (destruct r; try discriminate; reflexivity).
  rewrite run_unfold.
  cbn [Superstruct.object Superstruct.struct_validator
       Superstruct.struct_entries Superstruct.struct_refiner
       Superstruct.struct_type].
  unfold Superstruct.object_validator. rewrite Ho.
  unfold bind at 1 2. cbn [Superstruct.toFailure ret].
  unfold bind at 1. rewrite run_entries_app. unfold bind at 1.
  assert (Hs : Forall2 (fun ks check => decides (snd ks) check)
                 repository_schema
                 [refined nonempty_string; refined nonempty_string])
    by (repeat constructor; exact decides_nonempty_string).
  pose proof (run_entries_schema Hs r p) as Hrun.
  assert (E : fields_check repository_schema
                [refined nonempty_string; refined nonempty_string] r = Pass).
  { unfold fields_check, repository_schema.
    cbn [map fst snd combine fold_right].
    rewrite !(proj2 (@refined_Pass nonempty_string _
                       (@nonempty_string_string _))) by assumption.
    reflexivity. }
  rewrite E in Hrun. cbn [outcome] in Hrun. rewrite Hrun.
  rewrite Hkeys, (@unknowns_first repository_schema before after k Hb Hk).
  cbn [map run_entries]. unfold bind.
  now rewrite (@run_never _ (p ++ [k])%list Hx).
Qed.

(** X17.  An unknown key of [repository] is reported by name: on an
    object that is valid but for keys of its [repository] other than
    [type] and [url], the assertion reports the first such key [k] in the
    order of [Object.keys] (array indices first, in ascending order, then
    the other keys as inserted), provided the value bound to it can be
    converted to a string: the path is [repository.k], the type [never]
    and the value the one bound to the key. *)
Theorem assertion_reports_first_unknown_repository_key
  (describe : Superstruct.Failure -> string) (v : value)
  (before after : list string) (k : string) :
  isObject v = true ->
  accepts VersionStruct (getProp v "version") ->
  accepts NameStruct (getProp v "name") ->
  (present (getProp v "main") -> nonempty_string (getProp v "main") = true) ->
  repository_shape (getProp v "repository") ->
  keys (getProp v "repository") = (before ++ k :: after)%list ->
  (forall k0, In k0 before -> k0 = "type" \/ k0 = "url") ->
  k <> "type" -> k <> "url" ->
  printable (getProp (getProp v "repository") k) = true ->
  throws (assertIsNpmSnapPackageJson describe v)
    (invalid_package_json ++ ": "
     ++ Utils.getErrorMessage
          ("At path: repository." ++ k ++ " -- "
           ++ describe
                (Superstruct.mkFailure (getProp (getProp v "repository") k)
                   "never" None ["repository"; k]))
     ++ ".").
Proof.
  intros Ho Hv Hn Hm Hshape Hkeys Hbefore Hkt Hku Hx.
  apply (accepts_iff _ decides_VersionStruct) in Hv.
  apply (accepts_iff _ decides_NameStruct) in Hn.
  apply optional_ok in Hm.
  assert (Hb : forallb (Superstruct.is_known repository_schema) before = true).
  { apply forallb_forall. intros k0 Hk0.
    destruct (Hbefore k0 Hk0) as [-> | ->]; reflexivity. }
  assert (Hk : Superstruct.is_known repository_schema k = false).
  { unfold Superstruct.is_known, repository_schema. cbn [map fst existsb].
    apply String.eqb_neq in Hkt, Hku. now rewrite Hkt, Hku. }
  apply assert_reports
    with (f := Superstruct.mkFailure (getProp (getProp v "repository") k)
                 "never" None ["repository"; k]).
  intros st. rewrite (@validate_entries v st Ho). unfold bind.
  pose proof (decides_VersionStruct (getProp v "version") ["version"]) as H1.
  rewrite Hv in H1. cbn [outcome] in H1. rewrite H1.
  cbn [map fst snd run_entries app]. unfold bind.
  pose proof (decides_NameStruct (getProp v "name") ["name"]) as H2.
  rewrite Hn in H2. cbn [outcome] in H2. rewrite H2.
  pose proof (decides_optional decides_nonempty_string eq_refl
                (getProp v "main") ["main"]) as H3.
  rewrite (proj2 (@optional_check_Pass _ nonempty_string _
                    (@refined_Pass _ _ (@nonempty_string_string _)))) in H3
    by exact Hm.
  cbn [outcome] in H3. rewrite H3.
  now rewrite (@run_repository_unknown ["repository"] _ before after k
                 Hshape Hkeys Hb Hk Hx).
Qed.

Lemma assertion_reports_first_unknown_repository_key_witness :
  throws
    (assertIsNpmSnapPackageJson (fun _ => "Expected never")
       (VObject (minimal_metadata
                 ++ [("repository",
                       VObject (git_repository
                                ++ ("b", VNumber 1) :: [("0", VNumber 2)]))])))
    (invalid_package_json ++ ": "
     ++ Utils.getErrorMessage
          ("At path: repository." ++ "0" ++ " -- " ++ "Expected never")
     ++ ".").
Proof.
  apply (@assertion_reports_first_unknown_repository_key
           (fun _ => "Expected never")
           (VObject (minimal_metadata
                     ++ [("repository",
                           VObject (git_repository
                                    ++ ("b", VNumber 1)
                                       :: [("0", VNumber 2)]))]))
           [] ["type"; "url"; "b"] "0");
    try reflexivity; try discriminate.
  - intros st. vm_compute. reflexivity.
  - intros st. vm_compute. reflexivity.
  - intros H. elim H. reflexivity.
  - repeat split.
  - intros k0 [].
Defined.

(* ================================================================== *)
(** ** Further properties: when the predicates return *)

Lemma verdict_cases (v : value) :
  returns (isNpmSnapPackageJson v) true
  \/ returns (isNpmSnapPackageJson v) false
  \/ throws (isNpmSnapPackageJson v) cannot_convert.
Proof.
  pose proof (isNpmSnapPackageJson_answers v) as H.
  destruct (metadata_check v); cbn [answers] in H; auto.
Qed.

Lemma returns_when_not_Raise (m : M bool) (o : verdict) :
  answers m o -> o <> Raise -> exists b, returns m b.
Proof.
  intros H Hn. destruct o; cbn [answers] in H; [eauto | eauto | congruence].
Qed.

(** X18.  What the predicates can do is return [true], return [false]
    or throw the TypeError of a conversion to a string, and the last
    only on a value that cannot be converted.  [isNpmSnapPackageJson]
    returns a boolean whenever [version], [name], [main] and what the
    keys of [repository] hold can be converted to strings, and the
    version and name predicates whenever their argument can.  The answer
    is [false] on a value that is not an object, for the version and
    name predicates on a value that is not a string and can be
    converted, and for the name predicate on a string of 215 characters
    or more. *)
Theorem predicates_return_on_printable_values (v : value) :
  (returns (isNpmSnapPackageJson v) true
   \/ returns (isNpmSnapPackageJson v) false
   \/ throws (isNpmSnapPackageJson v) cannot_convert)
  /\ (printable_fields v = true ->
      exists b, returns (isNpmSnapPackageJson v) b)
  /\ (printable v = true ->
      (exists b, returns (Superstruct.is_ v VersionStruct) b)
      /\ (exists b, returns (Superstruct.is_ v NameStruct) b))
  /\ (isObject v = false -> returns (isNpmSnapPackageJson v) false)
  /\ (isString v = false -> printable v = true ->
      rejects VersionStruct v /\ rejects NameStruct v)
  /\ (forall s, v = VString s -> 215 <= String.length s ->
      rejects NameStruct v).
Proof.
  split; [apply verdict_cases |].
  split; [| split; [| split; [| split]]].
  - intros H.
    apply (@returns_when_not_Raise _ _ (isNpmSnapPackageJson_answers v)).
    now apply metadata_check_not_Raise.
  - intros H. split.
    + apply (@returns_when_not_Raise _ _ (decides_is v decides_VersionStruct)).
      now apply refined_not_Raise.
    + apply (@returns_when_not_Raise _ _ (decides_is v decides_NameStruct)).
      now apply refined_not_Raise.
  - intros Ho. apply rejected_when. unfold metadata_check. rewrite Ho.
    now apply reported_printable, printable_non_object.
  - intros Hs Hp. split.
    + apply rejects_VersionStruct. split; [| exact Hp].
      destruct v; try reflexivity; discriminate.
    + apply rejects_NameStruct. split; [| exact Hp].
      destruct v; try reflexivity; discriminate.
  - intros s -> Hs. apply rejects_NameStruct. split; [| reflexivity].
    unfold name_ok.
    replace (String.length s <=? 214) with false
      by (symmetry; apply Nat.leb_gt; lia).
    now rewrite !andb_false_r.
Qed.

(** X19.  The [repository] object is closed: on a value whose [version],
    [name], [repository.type] and [repository.url] are all valid, a
    further key in [repository] keeps [isNpmSnapPackageJson] from
    answering [true]; it answers [false] when [main] and what the keys
    of [repository] hold can be converted to strings. *)
Theorem repository_extra_key_is_never_accepted (v : value) (k : string) :
  isObject v = true ->
  accepts VersionStruct (getProp v "version") ->
  accepts NameStruct (getProp v "name") ->
  isObject (getProp v "repository") = true ->
  nonempty_string (getProp (getProp v "repository") "type") = true ->
  nonempty_string (getProp (getProp v "repository") "url") = true ->
  In k (keys (getProp v "repository")) ->
  k <> "type" -> k <> "url" ->
  ~ returns (isNpmSnapPackageJson v) true
  /\ (printable (getProp v "main") = true ->
      (forall k', In k' (keys (getProp v "repository")) ->
                  printable (getProp (getProp v "repository") k') = true) ->
      returns (isNpmSnapPackageJson v) false).
Proof.
  intros _ Hv Hn Ho Ht Hu Hk Hkt Hku.
  assert (Hnot : ~ returns (isNpmSnapPackageJson v) true).
  { intros H. apply isNpmSnapPackageJson_true, metadata_ok_iff in H.
    destruct H as (_ & _ & _ & _ & Hr).
    destruct Hr as [_ Hc].
    - intros Hundef. rewrite Hundef in Ho. discriminate.
    - destruct (Hc k Hk); contradiction. }
  split; [exact Hnot |].
  intros Hm Hks.
  apply accepts_VersionStruct, version_ok_string, printable_string in Hv.
  apply accepts_NameStruct, name_ok_string, printable_string in Hn.
  apply nonempty_string_string, printable_string in Ht.
  apply nonempty_string_string, printable_string in Hu.
  assert (Hp : printable_fields v = true).
  { unfold printable_fields. rewrite Hv, Hn, Hm. cbn [andb forallb].
    rewrite Ht, Hu. cbn [andb]. apply forallb_forall. exact Hks. }
  apply metadata_check_not_Raise in Hp.
  destruct (verdict_cases v) as [H | [H | H]];
    [contradiction | exact H |].
  now apply isNpmSnapPackageJson_throws in H.
Qed.

Lemma repository_extra_key_is_never_accepted_witness :
  ~ returns
      (isNpmSnapPackageJson
         (VObject (minimal_metadata
                   ++ [("repository",
                         VObject (git_repository
                                  ++ [("directory", VString "packages/snap")]))])))
      true
  /\ (printable
        (getProp
           (VObject (minimal_metadata
                     ++ [("repository",
                           VObject (git_repository
                                    ++ [("directory", VString "packages/snap")]))]))
           "main") = true ->
      (forall k',
          In k'
            (keys
               (getProp
                  (VObject (minimal_metadata
                            ++ [("repository",
                                  VObject (git_repository
                                           ++ [("directory",
                                                 VString "packages/snap")]))]))
                  "repository")) ->
          printable
            (getProp
               (getProp
                  (VObject (minimal_metadata
                            ++ [("repository",
                                  VObject (git_repository
                                           ++ [("directory",
                                                 VString "packages/snap")]))]))
                  "repository") k') = true) ->
      returns
        (isNpmSnapPackageJson
           (VObject (minimal_metadata
                     ++ [("repository",
                           VObject (git_repository
                                    ++ [("directory", VString "packages/snap")]))])))
        false).
Proof.
  apply (@repository_extra_key_is_never_accepted _ "directory");
    try reflexivity; try discriminate.
  - intros st. vm_compute. reflexivity.
  - intros st. vm_compute. reflexivity.
  - simpl. right. right. left. reflexivity.
Defined.

(** X20.  The assertion and the predicate agree on what is valid: from
    any store, [assertIsNpmSnapPackageJson(v)] returns exactly when
    [isNpmSnapPackageJson(v)] answers [true], and throws exactly when
    the predicate does not answer [true], that is, when it answers
    [false] or throws. *)
Theorem assertion_returns_iff_guard_accepts
  (describe : Superstruct.Failure -> string) (v : value) (st : store) :
  (fst (assertIsNpmSnapPackageJson describe v st) = Normal tt
   <-> fst (isNpmSnapPackageJson v st) = Normal true)
  /\ ((exists message,
          fst (assertIsNpmSnapPackageJson describe v st) = Throw message)
      <-> (fst (isNpmSnapPackageJson v st) = Normal false
           \/ fst (isNpmSnapPackageJson v st) = Throw cannot_convert))
  /\ snd (assertIsNpmSnapPackageJson describe v st) = st.
Proof.
  rewrite (@answers_completion _ _ st (isNpmSnapPackageJson_answers v)).
  destruct (assertIsNpmSnapPackageJson_cases describe v) as (Hok & Hko & Hth).
  destruct (metadata_check v); cbn [verdict_completion fst].
  - rewrite (Hok eq_refl st). cbn [fst snd].
    split; [tauto |]. split; [| reflexivity].
    split; [intros [m H]; discriminate | intros [H | H]; discriminate].
  - destruct (Hko eq_refl) as (f & Hf). rewrite (Hf st). cbn [fst snd].
    split; [split; discriminate |]. split; [| reflexivity].
    split; [now left | eauto].
  - rewrite (Hth eq_refl st). cbn [fst snd].
    split; [split; discriminate |]. split; [| reflexivity].
    split; [now right | eauto].
Qed.
